(** * Random User Generator: a model of [src/components/random-user.tsx]

    The component is a React function component.  Its six [useState] cells
    form the record [State]; everything the handlers touch outside of React
    (local storage, the clipboard, [alert], [console.error]) is gathered in
    [World].  Event handlers are functions [World -> World]; the effect of
    lines 42-44 (persist the history whenever the [userHistory] array is
    replaced) is run by [commit] after each handler.  The two halves of
    [fetchRandomUser], before and after its awaits, are separate events, so
    that traces cover calls that overlap.

    Strings.  A character is a UTF-16 code unit below 256 (ASCII and the
    Latin-1 supplement), carried by Rocq's [ascii]; on that range
    [toLowerCase], [includes], template literals, [JSON.stringify] and
    [JSON.parse] are modelled exactly; a text whose escapes denote code
    units above 255 is reported as out of range.

    Objects.  Membership in [favorites] is decided by reference
    ([Array.prototype.includes], [!==]), so an object is a [User] record
    together with the address the runtime gave it. *)

From Stdlib Require Import ZArith NArith List String Ascii Bool Lia DecimalString.
From stdpp Require Import base option list strings gmap.
Import ListNotations.

Local Open Scope string_scope.
Local Open Scope list_scope.

(** ** Strings of the runtime *)

Module JsString.

(** [String.prototype.toLowerCase] on one code unit below 256: the letters
    A-Z and the Latin-1 capitals U+00C0-U+00DE (all but the multiplication
    sign U+00D7) move up by 32, every other code unit is kept. *)
Definition lower_char (c : ascii) : ascii :=
  let n := N_of_ascii c in
  if ((65 <=? n) && (n <=? 90) || (192 <=? n) && (n <=? 222) && negb (n =? 215))%N
  then ascii_of_N (n + 32) else c.

Fixpoint toLowerCase (s : string) : string :=
  match s with
  | EmptyString => EmptyString
  | String c s' => String (lower_char c) (toLowerCase s')
  end.

(** [s.startsWith(t)]. *)
Fixpoint startsWith (s t : string) {struct t} : bool :=
  match t, s with
  | EmptyString, _ => true
  | String _ _, EmptyString => false
  | String b t', String a s' => Ascii.eqb a b && startsWith s' t'
  end.

(** [s.includes(t)]: [t] occurs in [s] at some position. *)
Fixpoint includes (s t : string) : bool :=
  startsWith s t ||
  match s with
  | EmptyString => false
  | String _ s' => includes s' t
  end.

(** Number-to-string conversion of a template literal, for an integer. *)
Definition of_int (z : Z) : string := NilZero.string_of_int (Z.to_int z).

End JsString.

(** ** The data model *)

(** [interface User], lines 17-23. *)
Record User := mkUser {
  name : string;
  email : string;
  address : string;
  image : string;
  gender : string
}.

(** A [User] object on the heap: the address stands for its identity. *)
Record Obj := mkObj { addr : nat; fields : User }.

(** [a === b] on objects. *)
Definition same_ref (a b : Obj) : bool := Nat.eqb (addr a) (addr b).

(** [arr.includes(x)] on an array of objects. *)
Definition arr_includes (arr : list Obj) (x : Obj) : bool := existsb (same_ref x) arr.

(** What can be thrown and logged. *)
Inductive Exn :=
| NetworkError   (* [fetch] rejected *)
| BodyError      (* [response.json()] rejected *)
| TypeError      (* property read on [undefined] *)
| SyntaxError.   (* [JSON.parse] *)

(** The six [useState] cells, lines 26-31. *)
Record State := mkState {
  user : option Obj;
  loading : bool;
  error : option string;
  userHistory : list Obj;
  favorites : list Obj;
  searchTerm : string
}.

Definition initialState : State :=
  {| user := None; loading := false; error := None;
     userHistory := []; favorites := []; searchTerm := EmptyString |}.

Record World := mkWorld {
  ui : State;
  localStorage : gmap string string;
  clipboard : list string;      (* texts passed to [clipboard.writeText], oldest first *)
  alerts : list string;         (* messages passed to [alert], oldest first *)
  console : list Exn;           (* values passed to [console.error], oldest first *)
  nextAddr : nat;               (* the next free object address *)
  historyStale : bool           (* [userHistory] was replaced since the persist effect last ran *)
}.

Definition initialWorld (storage : gmap string string) : World :=
  {| ui := initialState; localStorage := storage; clipboard := []; alerts := [];
     console := []; nextAddr := 0; historyStale := false |}.

(** ** State setters *)

Definition with_ui (f : State -> State) (w : World) : World :=
  {| ui := f (ui w); localStorage := localStorage w; clipboard := clipboard w;
     alerts := alerts w; console := console w; nextAddr := nextAddr w;
     historyStale := historyStale w |}.

Definition setUser (u : option Obj) : World -> World :=
  with_ui (fun s => {| user := u; loading := loading s; error := error s;
                       userHistory := userHistory s; favorites := favorites s;
                       searchTerm := searchTerm s |}).

Definition setLoading (b : bool) : World -> World :=
  with_ui (fun s => {| user := user s; loading := b; error := error s;
                       userHistory := userHistory s; favorites := favorites s;
                       searchTerm := searchTerm s |}).

Definition setError (e : option string) : World -> World :=
  with_ui (fun s => {| user := user s; loading := loading s; error := e;
                       userHistory := userHistory s; favorites := favorites s;
                       searchTerm := searchTerm s |}).

Definition setFavorites (f : list Obj) : World -> World :=
  with_ui (fun s => {| user := user s; loading := loading s; error := error s;
                       userHistory := userHistory s; favorites := f;
                       searchTerm := searchTerm s |}).

Definition setSearchTerm (t : string) : World -> World :=
  with_ui (fun s => {| user := user s; loading := loading s; error := error s;
                       userHistory := userHistory s; favorites := favorites s;
                       searchTerm := t |}).

(** [setUserHistory(upd)] with an updater function.  Every call in the source
    hands React a freshly built array, so the dependency [userHistory] of the
    persist effect always changes: the world is marked stale. *)
Definition setUserHistory (upd : list Obj -> list Obj) (w : World) : World :=
  {| ui := {| user := user (ui w); loading := loading (ui w); error := error (ui w);
              userHistory := upd (userHistory (ui w)); favorites := favorites (ui w);
              searchTerm := searchTerm (ui w) |};
     localStorage := localStorage w; clipboard := clipboard w;
     alerts := alerts w; console := console w; nextAddr := nextAddr w;
     historyStale := true |}.

(** ** JSON: the two built-ins the persistence bridge calls *)

Module Json.

#[warnings="-register-all"]
Inductive value :=
| JNull
| JBool (b : bool)
| JNum (lexeme : string)
| JStr (s : string)
| JArr (items : list value)
| JObj (members : list (string * value)).

Definition dquote : ascii := "034"%char.
Definition backslash : ascii := "092"%char.

(** *** [JSON.stringify] of a [User[]] *)

Definition hex_digit (n : N) : ascii :=
  if (n <? 10)%N then ascii_of_N (48 + n) else ascii_of_N (87 + n).

(** QuoteJSONString on one code unit. *)
Definition escape_char (c : ascii) : string :=
  let n := N_of_ascii c in
  if (n =? 8)%N then String backslash "b"
  else if (n =? 9)%N then String backslash "t"
  else if (n =? 10)%N then String backslash "n"
  else if (n =? 12)%N then String backslash "f"
  else if (n =? 13)%N then String backslash "r"
  else if (n =? 34)%N then String backslash (String dquote EmptyString)
  else if (n =? 92)%N then String backslash (String backslash EmptyString)
  else if (n <? 32)%N then
    String backslash ("u00" ++ String (hex_digit (n / 16)) (String (hex_digit (n mod 16)) EmptyString))
  else String c EmptyString.

Fixpoint escape (s : string) : string :=
  match s with
  | EmptyString => EmptyString
  | String c s' => escape_char c ++ escape s'
  end.

Definition quote (s : string) : string :=
  String dquote (escape s ++ String dquote EmptyString).

Definition member (key val : string) : string := quote key ++ ":" ++ quote val.

(** Own properties are written in creation order: name, email, address,
    image, gender (lines 54-60). *)
Definition stringify_user (u : User) : string :=
  "{" ++ member "name" (name u) ++ "," ++ member "email" (email u) ++ ","
      ++ member "address" (address u) ++ "," ++ member "image" (image u) ++ ","
      ++ member "gender" (gender u) ++ "}".

Fixpoint join_comma (l : list string) : string :=
  match l with
  | [] => EmptyString
  | [x] => x
  | x :: rest => x ++ "," ++ join_comma rest
  end.

Definition stringify (users : list User) : string :=
  "[" ++ join_comma (map stringify_user users) ++ "]".

(** *** [JSON.parse]

    A pushdown automaton that reads the text one code unit at a time, so it
    is total and needs no fuel.  The stack holds the arrays and objects that
    are still open. *)

Inductive frame :=
| FArr (done : list value)                              (* finished items, last first *)
| FObj (done : list (string * value)) (key : option string)
| FTaint.   (* bottom marker: a \u escape denoted a code unit above 255 *)

Inductive numst := NMinus | NZero | NInt | NDot | NFrac | NE | NESign | NExp.

Inductive mode :=
| MValue (first : bool)        (* a value is due; [first]: right after an opening bracket *)
| MKey (first : bool)          (* a member name is due; [first]: right after an opening brace *)
| MColon
| MString (is_key : bool) (acc : list ascii)
| MEscape (is_key : bool) (acc : list ascii)
| MUnicode (is_key : bool) (acc : list ascii) (digits : list N)
| MNumber (st : numst) (acc : list ascii)
| MLiteral (rest : list ascii) (v : value)
| MAfter                       (* a value inside a container has just ended *)
| MDone (v : value)            (* the top-level value has ended *)
| MFail.                       (* the text is not JSON *)

Definition pstate : Type := list frame * mode.

Definition fail : pstate := ([], MFail).

Definition text (acc : list ascii) : string := string_of_list_ascii (rev acc).

Definition is_ws (c : ascii) : bool :=
  let n := N_of_ascii c in ((n =? 32) || (n =? 9) || (n =? 10) || (n =? 13))%N.

Definition is_digit (c : ascii) : bool :=
  let n := N_of_ascii c in ((48 <=? n) && (n <=? 57))%N.

Definition hex_val (c : ascii) : option N :=
  let n := N_of_ascii c in
  if ((48 <=? n) && (n <=? 57))%N then Some (n - 48)%N
  else if ((97 <=? n) && (n <=? 102))%N then Some (n - 87)%N
  else if ((65 <=? n) && (n <=? 70))%N then Some (n - 55)%N
  else None.

(** A value is complete: hand it to the innermost open container. *)
Definition deliver (v : value) (stk : list frame) : pstate :=
  match stk with
  | [] | FTaint :: _ => (stk, MDone v)
  | FArr done :: stk' => (FArr (v :: done) :: stk', MAfter)
  | FObj done (Some k) :: stk' => (FObj ((k, v) :: done) None :: stk', MAfter)
  | FObj _ None :: _ => fail
  end.

Definition after_step (stk : list frame) (c : ascii) : pstate :=
  if is_ws c then (stk, MAfter)
  else if Ascii.eqb c "," then
    match stk with
    | FArr _ :: _ => (stk, MValue false)
    | FObj _ None :: _ => (stk, MKey false)
    | _ => fail
    end
  else if Ascii.eqb c "]" then
    match stk with
    | FArr done :: stk' => deliver (JArr (rev done)) stk'
    | _ => fail
    end
  else if Ascii.eqb c "}" then
    match stk with
    | FObj done None :: stk' => deliver (JObj (rev done)) stk'
    | _ => fail
    end
  else fail.

Definition done_step (stk : list frame) (v : value) (c : ascii) : pstate :=
  if is_ws c then (stk, MDone v) else fail.

(** The character [c] ends the number whose text is [acc]; it is then read
    as the character that follows a value. *)
Definition end_number (stk : list frame) (acc : list ascii) (c : ascii) : pstate :=
  match deliver (JNum (text acc)) stk with
  | (stk', MAfter) => after_step stk' c
  | (stk', MDone v) => done_step stk' v c
  | _ => fail
  end.

Definition is_exp (c : ascii) : bool := Ascii.eqb c "e" || Ascii.eqb c "E".
Definition is_sign (c : ascii) : bool := Ascii.eqb c "+" || Ascii.eqb c "-".

Definition number_step (stk : list frame) (st : numst) (acc : list ascii) (c : ascii) : pstate :=
  let go st' := (stk, MNumber st' (c :: acc)) in
  match st with
  | NMinus => if Ascii.eqb c "0" then go NZero else if is_digit c then go NInt else fail
  | NZero => if Ascii.eqb c "." then go NDot else if is_exp c then go NE
             else end_number stk acc c
  | NInt => if is_digit c then go NInt else if Ascii.eqb c "." then go NDot
            else if is_exp c then go NE else end_number stk acc c
  | NDot => if is_digit c then go NFrac else fail
  | NFrac => if is_digit c then go NFrac else if is_exp c then go NE
             else end_number stk acc c
  | NE => if is_sign c then go NESign else if is_digit c then go NExp else fail
  | NESign => if is_digit c then go NExp else fail
  | NExp => if is_digit c then go NExp else end_number stk acc c
  end.

(** The closing quote of a string: a member name waits for its colon, any
    other string is a value. *)
Definition end_string (stk : list frame) (is_key : bool) (acc : list ascii) : pstate :=
  if is_key then
    match stk with
    | FObj done None :: stk' => (FObj done (Some (text acc)) :: stk', MColon)
    | _ => fail
    end
  else deliver (JStr (text acc)) stk.

Definition escape_step (stk : list frame) (is_key : bool) (acc : list ascii) (c : ascii) : pstate :=
  let put x := (stk, MString is_key (x :: acc)) in
  if Ascii.eqb c dquote || Ascii.eqb c backslash || Ascii.eqb c "/" then put c
  else if Ascii.eqb c "b" then put "008"%char
  else if Ascii.eqb c "f" then put "012"%char
  else if Ascii.eqb c "n" then put "010"%char
  else if Ascii.eqb c "r" then put "013"%char
  else if Ascii.eqb c "t" then put "009"%char
  else if Ascii.eqb c "u" then (stk, MUnicode is_key acc [])
  else fail.

(** Remember, at the bottom of the stack, that a string has lost a code
    unit; the text is still checked to its end. *)
Definition taint (stk : list frame) : list frame :=
  match last stk with
  | Some FTaint => stk
  | _ => stk ++ [FTaint]
  end.

Definition unicode_step (stk : list frame) (is_key : bool) (acc : list ascii)
    (digits : list N) (c : ascii) : pstate :=
  match hex_val c with
  | None => fail
  | Some h =>
      match digits with
      | [d1; d2; d3] =>
          let code := (((d1 * 16 + d2) * 16 + d3) * 16 + h)%N in
          if (code <? 256)%N then (stk, MString is_key (ascii_of_N code :: acc))
          else (taint stk, MString is_key ("?"%char :: acc))
      | _ => (stk, MUnicode is_key acc (digits ++ [h]))
      end
  end.

Definition value_step (stk : list frame) (first : bool) (c : ascii) : pstate :=
  if is_ws c then (stk, MValue first)
  else if Ascii.eqb c "[" then (FArr [] :: stk, MValue true)
  else if Ascii.eqb c "{" then (FObj [] None :: stk, MKey true)
  else if Ascii.eqb c dquote then (stk, MString false [])
  else if Ascii.eqb c "-" then (stk, MNumber NMinus [c])
  else if Ascii.eqb c "0" then (stk, MNumber NZero [c])
  else if is_digit c then (stk, MNumber NInt [c])
  else if Ascii.eqb c "t" then (stk, MLiteral ["r"; "u"; "e"]%char (JBool true))
  else if Ascii.eqb c "f" then (stk, MLiteral ["a"; "l"; "s"; "e"]%char (JBool false))
  else if Ascii.eqb c "n" then (stk, MLiteral ["u"; "l"; "l"]%char JNull)
  else if Ascii.eqb c "]" && first then
    match stk with
    | FArr [] :: stk' => deliver (JArr []) stk'
    | _ => fail
    end
  else fail.

Definition key_step (stk : list frame) (first : bool) (c : ascii) : pstate :=
  if is_ws c then (stk, MKey first)
  else if Ascii.eqb c dquote then (stk, MString true [])
  else if Ascii.eqb c "}" && first then
    match stk with
    | FObj [] None :: stk' => deliver (JObj []) stk'
    | _ => fail
    end
  else fail.

Definition step (ps : pstate) (c : ascii) : pstate :=
  let (stk, m) := ps in
  match m with
  | MValue first => value_step stk first c
  | MKey first => key_step stk first c
  | MColon => if is_ws c then ps else if Ascii.eqb c ":" then (stk, MValue false) else fail
  | MString is_key acc =>
      if Ascii.eqb c dquote then end_string stk is_key acc
      else if Ascii.eqb c backslash then (stk, MEscape is_key acc)
      else if (N_of_ascii c <? 32)%N then fail
      else (stk, MString is_key (c :: acc))
  | MEscape is_key acc => escape_step stk is_key acc c
  | MUnicode is_key acc digits => unicode_step stk is_key acc digits c
  | MNumber st acc => number_step stk st acc c
  | MLiteral rest v =>
      match rest with
      | [] => fail
      | x :: rest' =>
          if Ascii.eqb c x then
            match rest' with [] => deliver v stk | _ => (stk, MLiteral rest' v) end
          else fail
      end
  | MAfter => after_step stk c
  | MDone v => done_step stk v c
  | MFail => ps
  end.

Fixpoint run (ps : pstate) (s : string) : pstate :=
  match s with
  | EmptyString => ps
  | String c s' => run (step ps c) s'
  end.

Inductive result :=
| Parsed (v : value)
| Throws                 (* SyntaxError *)
| OutOfRange.            (* well-formed, with a string beyond the modelled characters *)

(** End of input. *)
Definition finish (ps : pstate) : result :=
  match ps with
  | ([], MDone v) => Parsed v
  | ([], MNumber (NZero | NInt | NFrac | NExp) acc) => Parsed (JNum (text acc))
  | ([FTaint], MDone _) => OutOfRange
  | _ => Throws
  end.

Definition parse (s : string) : result := finish (run ([], MValue false) s).

(** *** Reading a parsed value at the type [User[]]

    The objects this component writes have exactly the five string
    members of [stringify_user], in that order. *)

Definition as_user (v : value) : option User :=
  match v with
  | JObj [(k1, JStr a); (k2, JStr b); (k3, JStr c); (k4, JStr d); (k5, JStr e)] =>
      if bool_decide ([k1; k2; k3; k4; k5] = ["name"; "email"; "address"; "image"; "gender"])
      then Some (mkUser a b c d e) else None
  | _ => None
  end.

Definition as_users (v : value) : option (list User) :=
  match v with
  | JArr items => mapM as_user items
  | _ => None
  end.

(** The value a [User] object denotes. *)
Definition of_user (u : User) : value :=
  JObj [("name", JStr (name u)); ("email", JStr (email u)); ("address", JStr (address u));
        ("image", JStr (image u)); ("gender", JStr (gender u))].

End Json.

(** ** The remote service *)

(** One entry of [results] in the body of [https://randomuser.me/api/], as
    far as lines 55-59 read it. *)
Module Api.
Record Name := { first : string; last : string }.
Record Street := { number : Z; street_name : string }.
Record Location := { street : Street; city : string; country : string }.
Record Picture := { large : string }.
Record Result := {
  name : Name;
  email : string;
  location : Location;
  picture : Picture;
  gender : string
}.
End Api.

(** How the two awaited promises of lines 51-52 settle. *)
Inductive Response :=
| Rejects                              (* [fetch] rejects *)
| BadBody                              (* [response.json()] rejects *)
| NoResults                            (* the body is JSON without [results] *)
| Body (results : list Api.Result).    (* the body has [results] *)

(** Lines 51-60: everything in the [try] block that can throw comes before
    the first setter.  Indexing a missing [data.results] throws;
    [data.results[0]] of an empty array is [undefined], and reading [.name]
    of it throws. *)
Definition newUser (r : Response) : Exn + User :=
  match r with
  | Rejects => inl NetworkError
  | BadBody => inl BodyError
  | NoResults => inl TypeError
  | Body results =>
      match results with
      | [] => inl TypeError
      | fetchedUser :: _ =>
          inr {| name := Api.first (Api.name fetchedUser) ++ " " ++ Api.last (Api.name fetchedUser);
                 email := Api.email fetchedUser;
                 address :=
                   JsString.of_int (Api.number (Api.street (Api.location fetchedUser))) ++ " "
                   ++ Api.street_name (Api.street (Api.location fetchedUser)) ++ ", "
                   ++ Api.city (Api.location fetchedUser) ++ ", "
                   ++ Api.country (Api.location fetchedUser);
                 image := Api.large (Api.picture fetchedUser);
                 gender := Api.gender fetchedUser |}
      end
  end.

(** The [catch] block runs. *)
Definition failed (r : Response) : bool :=
  match newUser r with inl _ => true | inr _ => false end.

(** ** Effects outside React *)

Definition console_error (e : Exn) (w : World) : World :=
  {| ui := ui w; localStorage := localStorage w; clipboard := clipboard w;
     alerts := alerts w; console := console w ++ [e]; nextAddr := nextAddr w;
     historyStale := historyStale w |}.

Definition writeText (t : string) (w : World) : World :=
  {| ui := ui w; localStorage := localStorage w; clipboard := clipboard w ++ [t];
     alerts := alerts w; console := console w; nextAddr := nextAddr w;
     historyStale := historyStale w |}.

Definition alert (msg : string) (w : World) : World :=
  {| ui := ui w; localStorage := localStorage w; clipboard := clipboard w;
     alerts := alerts w ++ [msg]; console := console w; nextAddr := nextAddr w;
     historyStale := historyStale w |}.

(** [n] objects have been created. *)
Definition allocated (n : nat) (w : World) : World :=
  {| ui := ui w; localStorage := localStorage w; clipboard := clipboard w;
     alerts := alerts w; console := console w; nextAddr := nextAddr w + n;
     historyStale := historyStale w |}.

Definition storageKey : string := "userHistory".

(** [localStorage.setItem(key, value)]. *)
Definition setItem (key value : string) (w : World) : World :=
  {| ui := ui w; localStorage := <[key := value]> (localStorage w);
     clipboard := clipboard w; alerts := alerts w; console := console w;
     nextAddr := nextAddr w; historyStale := historyStale w |}.

(** Lines 42-44, the body of the persist effect; [h] is the [userHistory] of
    the render that scheduled it. *)
Definition persistHistory (h : list Obj) (w : World) : World :=
  setItem storageKey (Json.stringify (map fields h)) w.

(** The persist effect has run for the current [userHistory]. *)
Definition persisted (w : World) : World :=
  {| ui := ui w; localStorage := localStorage w; clipboard := clipboard w;
     alerts := alerts w; console := console w; nextAddr := nextAddr w;
     historyStale := false |}.

(** Re-render after a handler: the persist effect runs when its dependency
    [userHistory] changed. *)
Definition commit (w : World) : World :=
  if historyStale w then persisted (persistHistory (userHistory (ui w)) w) else w.

(** ** The handlers *)

Definition failureMessage : string := "Failed to fetch user. Please try again.".

(** Lines 48-49: [fetchRandomUser] up to its first [await]. *)
Definition fetch_begin (w : World) : World := setError None (setLoading true w).

(** Lines 50-68: [fetchRandomUser] from the moment its promises settle. *)
Definition fetch_resume (r : Response) (w : World) : World :=
  let w' :=
    match newUser r with
    | inr u =>
        let o := mkObj (nextAddr w) u in
        setUserHistory (fun prev => prev ++ [o]) (setUser (Some o) (allocated 1 w))
    | inl err => setError (Some failureMessage) (console_error err w)
    end in
  setLoading false w'.

Definition newline : string := String "010"%char EmptyString.

(** Lines 77-83. *)
Definition copyUserInfo (w : World) : World :=
  match user (ui w) with
  | Some o =>
      let userInfo : string :=
        ("Name: " ++ name (fields o) ++ newline ++ "Email: " ++ email (fields o)
         ++ newline ++ "Address: " ++ address (fields o))%string in
      alert "User information copied to clipboard!" (writeText userInfo w)
  | None => w
  end.

(** Lines 86-92.  The callback is rebuilt whenever [favorites] changes, so
    it always reads the list of the current render. *)
Definition toggleFavorite (userToFavorite : Obj) (w : World) : World :=
  if arr_includes (favorites (ui w)) userToFavorite
  then setFavorites (List.filter (fun fav => negb (same_ref fav userToFavorite)) (favorites (ui w))) w
  else setFavorites (favorites (ui w) ++ [userToFavorite]) w.

(** Lines 95-97. *)
Definition clearHistory (w : World) : World := setUserHistory (fun _ => []) w.

(** Lines 100-102. *)
Definition handleSearch (value : string) (w : World) : World := setSearchTerm value w.

(** Lines 105-108, computed at every render. *)
Definition matches (term : string) (u : Obj) : bool :=
  JsString.includes (JsString.toLowerCase (name (fields u))) (JsString.toLowerCase term)
  || JsString.includes (JsString.toLowerCase (email (fields u))) (JsString.toLowerCase term).

Definition filteredHistory (s : State) : list Obj :=
  List.filter (matches (searchTerm s)) (userHistory s).

(** ** Events *)

Inductive Event :=
| FetchClicked                      (* the button of line 114 *)
| FetchSettled (r : Response)       (* the promises of a pending call settle *)
| FavoriteClicked (u : Obj)         (* lines 153 and 184 *)
| CopyClicked                       (* line 172 *)
| ClearClicked                      (* line 190 *)
| SearchTyped (value : string).     (* line 122 *)

Definition handle (e : Event) (w : World) : World :=
  match e with
  | FetchClicked => fetch_begin w
  | FetchSettled r => fetch_resume r w
  | FavoriteClicked u => toggleFavorite u w
  | CopyClicked => copyUserInfo w
  | ClearClicked => clearHistory w
  | SearchTyped v => handleSearch v w
  end.

Definition dispatch (e : Event) (w : World) : World := commit (handle e w).

Definition run (es : list Event) (w : World) : World :=
  fold_left (fun w e => dispatch e w) es w.

(** One call of [fetchRandomUser] from start to end, nothing in between. *)
Definition fetchRandomUser (r : Response) (w : World) : World :=
  dispatch (FetchSettled r) (dispatch FetchClicked w).

Definition fetches (rs : list Response) : list Event :=
  flat_map (fun r => [FetchClicked; FetchSettled r]) rs.

(** ** Mounting *)

Inductive Outcome :=
| Done (w : World)
| Uncaught (e : Exn)      (* an exception leaves the effect *)
| Unmodelled.             (* the stored value is not a [User[]] as this component writes it *)

Definition alloc_all (base : nat) (us : list User) : list Obj :=
  imap (fun i u => mkObj (base + i) u) us.

(** Lines 34-39.  [if (savedHistory)] is false for [null] and for the empty
    string. *)
Definition loadHistory (w : World) : Outcome :=
  match localStorage w !! storageKey with
  | None => Done w
  | Some savedHistory =>
      if bool_decide (savedHistory = EmptyString) then Done w
      else
        match Json.parse savedHistory with
        | Json.Throws => Uncaught SyntaxError
        | Json.OutOfRange => Unmodelled
        | Json.Parsed v =>
            match Json.as_users v with
            | None => Unmodelled
            | Some us =>
                Done (setUserHistory (fun _ => alloc_all (nextAddr w) us)
                        (allocated (length us) w))
            end
        end
  end.

(** The first render and its three effects in source order (lines 34, 42,
    72), then the re-render they cause.  The persist effect of the first
    render still sees the initial empty [userHistory]. *)
Definition mount (storage : gmap string string) : Outcome :=
  match loadHistory (initialWorld storage) with
  | Done w => Done (commit (fetch_begin (persistHistory [] w)))
  | other => other
  end.

(** ** The view *)

(** What the JSX of lines 111-204 shows of the state: the parts of the tree
    that are conditional or computed, each with the handler its control
    triggers. *)

Inductive Icon := ManIcon | WomanIcon.

(** The card of lines 134-177. *)
Record CardView := mkCard {
  imageSrc : string;          (* line 137 *)
  imageAlt : string;          (* line 138 *)
  cardName : string;          (* line 149 *)
  starClick : Event;          (* line 153 *)
  starClass : string;         (* line 155 *)
  cardEmail : string;         (* line 159 *)
  cardAddress : string;       (* line 162 *)
  cardGender : string;        (* line 165 *)
  genderIcon : Icon;          (* line 167 *)
  copyClick : Event           (* line 172 *)
}.

(** One item of the history list, lines 182-187. *)
Record RowView := mkRow {
  rowKey : nat;
  rowName : string;
  rowClick : Event;
  rowLabel : string
}.

Record View := mkView {
  searchValue : string;                     (* line 121 *)
  spinner : bool;                           (* lines 126-131 *)
  errorText : option string;                (* line 132 *)
  card : option CardView;                   (* lines 133-178 *)
  rows : list RowView;                      (* lines 181-188 *)
  favoriteNames : option (list string)      (* lines 193-202 *)
}.

Definition renderCard (s : State) (u : Obj) : CardView :=
  {| imageSrc := image (fields u);
     imageAlt := name (fields u);
     cardName := name (fields u);
     starClick := FavoriteClicked u;
     starClass := ("w-4 h-4 " ++ (if arr_includes (favorites s) u
                                  then "text-yellow-500" else "text-gray-400"))%string;
     cardEmail := email (fields u);
     cardAddress := address (fields u);
     cardGender := gender (fields u);
     genderIcon := if String.eqb (gender (fields u)) "male" then ManIcon else WomanIcon;
     copyClick := CopyClicked |}.

Definition renderRow (s : State) (index : nat) (u : Obj) : RowView :=
  {| rowKey := index;
     rowName := name (fields u);
     rowClick := FavoriteClicked u;
     rowLabel := if arr_includes (favorites s) u then "Unfavorite" else "Favorite" |}.

(** Lines 111-204.  [{error && ...}] shows nothing for [null] and for the
    empty string; [{favorites.length > 0 && ...}] shows the second list only
    when there is a favorite. *)
Definition render (s : State) : View :=
  {| searchValue := searchTerm s;
     spinner := loading s;
     errorText := match error s with
                  | Some e => if bool_decide (e = EmptyString) then None else Some e
                  | None => None
                  end;
     card := renderCard s <$> user s;
     rows := imap (renderRow s) (filteredHistory s);
     favoriteNames := if Nat.ltb 0 (length (favorites s))
                      then Some (map (fun u => name (fields u)) (favorites s))
                      else None |}.

(** * Vocabulary of the specification *)

(** ** The fetch cycle *)

Definition populated (s : State) : Prop := is_Some (user s).
Definition errored (s : State) : Prop := is_Some (error s).

(** "Exactly one of a populated current person or an error message." *)
Definition exactly_one_of (s : State) : Prop :=
  (populated s /\ ~ errored s) \/ (~ populated s /\ errored s).

(** ** Clipboard *)


(** ** Favorites *)

(** The list without every reference to [p]. *)
Definition without (p : Obj) (l : list Obj) : list Obj :=
  List.filter (fun fav => negb (same_ref fav p)) l.

(** ** History *)

Definition is_clear (e : Event) : bool :=
  match e with ClearClicked => true | _ => false end.

Definition no_clear (es : list Event) : bool := forallb (fun e => negb (is_clear e)) es.

(** The number of calls in a trace that ended in success. *)
Fixpoint successes (es : list Event) : nat :=
  match es with
  | [] => 0
  | FetchSettled r :: es' => (if failed r then 0 else 1) + successes es'
  | _ :: es' => successes es'
  end.

(** What an event other than a clear adds to the history. *)
Definition appended (e : Event) (w : World) : list Obj :=
  match e with
  | FetchSettled r =>
      match newUser r with
      | inr u => [mkObj (nextAddr w) u]
      | inl _ => []
      end
  | _ => []
  end.

(** ** Search *)

(** Two texts are equal up to the case of their letters. *)
Definition eq_ignore_case (a b : string) : Prop :=
  JsString.toLowerCase a = JsString.toLowerCase b.

(** [term] occurs in [s] as a case-insensitive substring: some stretch of
    [s] equals [term] up to case. *)
Definition contains_ci (s term : string) : Prop :=
  exists pre mid post, s = (pre ++ mid ++ post)%string /\ eq_ignore_case mid term.

(** The entry's name or email contains the term. *)
Definition entry_matches (term : string) (u : Obj) : Prop :=
  contains_ci (name (fields u)) term \/ contains_ci (email (fields u)) term.

(** [Keeps P l l']: [l'] holds exactly the entries of [l] that satisfy [P],
    each as often as in [l] and in the same order. *)
Inductive Keeps {A : Type} (P : A -> Prop) : list A -> list A -> Prop :=
| Keeps_nil : Keeps P [] []
| Keeps_take (x : A) (l l' : list A) : P x -> Keeps P l l' -> Keeps P (x :: l) (x :: l')
| Keeps_drop (x : A) (l l' : list A) : ~ P x -> Keeps P l l' -> Keeps P (x :: l) l'.

Definition with_search (term : string) (s : State) : State :=
  {| user := user s; loading := loading s; error := error s;
     userHistory := userHistory s; favorites := favorites s; searchTerm := term |}.

(** ** Persistence *)

(** Reading the stored history back: the item under the key, parsed. *)
Definition readHistory (storage : gmap string string) : option Json.result :=
  Json.parse <$> storage !! storageKey.

(** The component has mounted, holds the history [us] (as fresh objects),
    mirrors it in storage and is waiting for its first fetch. *)
Definition mounted_with (storage : gmap string string) (us : list User) : Prop :=
  exists w, mount storage = Done w
            /\ map fields (userHistory (ui w)) = us
            /\ localStorage w !! storageKey = Some (Json.stringify us)
            /\ loading (ui w) = true /\ user (ui w) = None /\ error (ui w) = None
            /\ favorites (ui w) = [].

(** Storage mirrors the history and no write is pending. *)
Definition synced (w : World) : Prop :=
  localStorage w !! storageKey = Some (Json.stringify (map fields (userHistory (ui w))))
  /\ historyStale w = false.

(** ** Traces *)

(** The person a successful fetch brings. *)
Definition fetched (e : Event) : option User :=
  match e with
  | FetchSettled r => match newUser r with inr u => Some u | inl _ => None end
  | _ => None
  end.

Definition has_clear (es : list Event) : bool := existsb is_clear es.

(** The events after the last clear; all of them when there is none. *)
Fixpoint since_clear (es : list Event) : list Event :=
  match es with
  | [] => []
  | e :: es' => if has_clear es' then since_clear es'
                else if is_clear e then es' else e :: es'
  end.

(** What a fetch event makes of the loading flag. *)
Definition busy_of (e : Event) : option bool :=
  match e with
  | FetchClicked => Some true
  | FetchSettled _ => Some false
  | _ => None
  end.

(** What a fetch event makes of the error. *)
Definition error_of (e : Event) : option (option string) :=
  match e with
  | FetchClicked => Some None
  | FetchSettled r => if failed r then Some (Some failureMessage) else None
  | _ => None
  end.

(** The event writes the history to storage. *)
Definition writes_history (e : Event) : bool :=
  is_clear e || bool_decide (is_Some (fetched e)).

(** Every object of the history has an address of its own, below the next
    free one. *)
Definition fresh_history (w : World) : Prop :=
  NoDup (map addr (userHistory (ui w)))
  /\ Forall (fun o => addr o < nextAddr w) (userHistory (ui w)).

Definition other_label (l : string) : string :=
  if String.eqb l "Unfavorite" then "Favorite" else "Unfavorite".

(** ** Sessions *)

(** The events the page can raise in a state: the fetch button, the search
    box and the clear button are always there; the star and the copy button
    belong to the card, a favorite button to each row; a pending fetch may
    settle at any time. *)
Inductive Offers (s : State) : Event -> Prop :=
| Offers_fetch : Offers s FetchClicked
| Offers_settle (r : Response) : Offers s (FetchSettled r)
| Offers_search (v : string) : Offers s (SearchTyped v)
| Offers_clear : Offers s ClearClicked
| Offers_star (c : CardView) : card (render s) = Some c -> Offers s (starClick c)
| Offers_copy (c : CardView) : card (render s) = Some c -> Offers s (copyClick c)
| Offers_row (row : RowView) : row ∈ rows (render s) -> Offers s (rowClick row).

(** A trace in which every event was offered by the page when it occurred. *)
Inductive Session (w : World) : list Event -> Prop :=
| Session_nil : Session w []
| Session_snoc (es : list Event) (e : Event) :
    Session w es -> Offers (ui (run es w)) e -> Session w (es ++ [e]).

(** The person has been on the page, on the card or in the history, at some
    point of the trace. *)
Definition was_shown (w : World) (es : list Event) (o : Obj) : Prop :=
  exists es1 es2, es = es1 ++ es2
    /\ (user (ui (run es1 w)) = Some o \/ o ∈ userHistory (ui (run es1 w))).

(** Every object the state refers to has been created: its address is below
    the next free one. *)
Definition all_created (w : World) : Prop :=
  Forall (fun o => addr o < nextAddr w) (favorites (ui w))
  /\ Forall (fun o => addr o < nextAddr w) (userHistory (ui w))
  /\ (forall u, user (ui w) = Some u -> addr u < nextAddr w).

Definition copies (es : list Event) : nat :=
  length (List.filter (fun e => match e with CopyClicked => true | _ => false end) es).

(** ** Sample data *)

Definition janeDoe : Api.Result :=
  {| Api.name := {| Api.first := "Jane"; Api.last := "Doe" |};
     Api.email := "jane@x.com";
     Api.location := {| Api.street := {| Api.number := 8929; Api.street_name := "Valwood Pkwy" |};
                        Api.city := "Billings"; Api.country := "United States" |};
     Api.picture := {| Api.large := "https://randomuser.me/api/portraits/women/1.jpg" |};
     Api.gender := "female" |}.

Definition johnSmith : Api.Result :=
  {| Api.name := {| Api.first := "John"; Api.last := "Smith" |};
     Api.email := "john.smith@example.com";
     Api.location := {| Api.street := {| Api.number := 12; Api.street_name := "High Street" |};
                        Api.city := "Leeds"; Api.country := "United Kingdom" |};
     Api.picture := {| Api.large := "https://randomuser.me/api/portraits/men/2.jpg" |};
     Api.gender := "male" |}.

Definition janeUser : User :=
  {| name := "Jane Doe"; email := "jane@x.com";
     address := "8929 Valwood Pkwy, Billings, United States";
     image := "https://randomuser.me/api/portraits/women/1.jpg";
     gender := "female" |}.

(** The text a session leaves in storage for a history holding Jane Doe. *)
Definition janeStored : string :=
  let q := String Json.dquote EmptyString in
  String.concat q
    ["[{"; "name"; ":"; "Jane Doe"; ","; "email"; ":"; "jane@x.com"; ",";
     "address"; ":"; "8929 Valwood Pkwy, Billings, United States"; ",";
     "image"; ":"; "https://randomuser.me/api/portraits/women/1.jpg"; ",";
     "gender"; ":"; "female"; "}]"]%string.

Definition alice : Obj := mkObj 0 (mkUser "Alice Roe" "alice@x.com" "1 A St, B, C" "a.jpg" "female").
Definition bob : Obj := mkObj 1 (mkUser "Bob Poe" "bob@x.com" "2 D St, E, F" "b.jpg" "male").

Definition emptyStorage : gmap string string := ∅.

Definition sampleTrace : list Event :=
  [FetchClicked; FetchSettled (Body [janeDoe]); FavoriteClicked alice;
   FetchClicked; FetchSettled Rejects; SearchTyped "jane";
   FetchClicked; FetchClicked; FetchSettled (Body [johnSmith]);
   FetchSettled (Body [janeDoe]); CopyClicked].

(** The component mounted over an empty storage, its first fetch pending. *)
Definition mountedEmpty : World :=
  match mount emptyStorage with Done w => w | _ => initialWorld emptyStorage end.

(** The same person fetched twice, with a failure in between. *)
Definition twiceJane : list Event :=
  [FetchSettled (Body [janeDoe]); FetchClicked; FetchSettled BadBody;
   FetchClicked; FetchSettled (Body [janeDoe])].

(** A short session: the first fetch brings Jane Doe, she is made a
    favorite from the card, and her data are copied. *)
Definition shortSession : list Event :=
  [FetchSettled (Body [janeDoe]); FavoriteClicked (mkObj 0 janeUser); CopyClicked].

(** The state after fetching the given people one after the other. *)
Definition historyOf (rs : list Api.Result) : State :=
  ui (run (fetches (map (fun r => Body [r]) rs)) (initialWorld emptyStorage)).

(** * Properties *)

(** ** Strings *)

Lemma startsWith_spec (s t : string) :
  JsString.startsWith s t = true <-> exists post, s = (t ++ post)%string.
Proof.
  revert s. induction t as [| b t IH]; intros s; cbn.
  - split; [intros _; exists s; reflexivity | reflexivity].
  - destruct s as [| a s]; cbn.
    + split; [discriminate | intros [post H]; discriminate H].
    + rewrite andb_true_iff, Ascii.eqb_eq, IH. split.
      * intros [-> [post ->]]. exists post. reflexivity.
      * intros [post H]. injection H as -> ->. split; [reflexivity | exists post; reflexivity].
Qed.

Lemma includes_spec (s t : string) :
  JsString.includes s t = true <-> exists pre post, s = (pre ++ t ++ post)%string.
Proof.
  induction s as [| a s IH].
  - cbn. rewrite orb_false_r, startsWith_spec. split.
    + intros [post H]. exists EmptyString, post. exact H.
    + intros (pre & post & H). destruct pre as [| c pre]; [| discriminate H].
      exists post. exact H.
  - cbn [JsString.includes]. rewrite orb_true_iff, startsWith_spec, IH. split.
    + intros [[post H] | (pre & post & H)].
      * exists EmptyString, post. exact H.
      * exists (String a pre), post. cbn. rewrite H. reflexivity.
    + intros (pre & post & H). destruct pre as [| c pre].
      * left. exists post. exact H.
      * right. cbn in H. injection H as _ H. exists pre, post. exact H.
Qed.


Lemma toLowerCase_app (a b : string) :
  JsString.toLowerCase (a ++ b) = (JsString.toLowerCase a ++ JsString.toLowerCase b)%string.
Proof.
  induction a as [| c a IH]; [reflexivity |].
  change (String (JsString.lower_char c) (JsString.toLowerCase (a ++ b)) =
          String (JsString.lower_char c) (JsString.toLowerCase a ++ JsString.toLowerCase b)).
  f_equal. exact IH.
Qed.

Lemma toLowerCase_split (s a b : string) :
  JsString.toLowerCase s = (a ++ b)%string ->
  exists s1 s2, s = (s1 ++ s2)%string
                /\ JsString.toLowerCase s1 = a /\ JsString.toLowerCase s2 = b.
Proof.
  revert s. induction a as [| c a IH]; intros s H.
  - exists EmptyString, s. repeat split. exact H.
  - destruct s as [| d s]; [discriminate H |].
    cbn in H. injection H as Hc H.
    destruct (IH s H) as (s1 & s2 & -> & H1 & H2).
    exists (String d s1), s2. cbn. rewrite Hc, H1. repeat split. exact H2.
Qed.

Example toLowerCase_samples :
  JsString.toLowerCase "Jane DOE <J.Doe@X.com> 42" = "jane doe <j.doe@x.com> 42"
  /\ JsString.lower_char "201"%char = "233"%char      (* E acute *)
  /\ JsString.lower_char "215"%char = "215"%char      (* multiplication sign *)
  /\ JsString.lower_char "223"%char = "223"%char.     (* sharp s *)
Proof. repeat split. Qed.

(** ** JSON round trip *)

Lemma run_app (ps : Json.pstate) (a b : string) :
  Json.run ps (a ++ b) = Json.run (Json.run ps a) b.
Proof.
  revert ps. induction a as [| c a IH]; intros ps; [reflexivity |].
  change (Json.run (Json.step ps c) (a ++ b) = Json.run (Json.run (Json.step ps c) a) b).
  apply IH.
Qed.

Lemma run_lit (ps : Json.pstate) (c : ascii) (s : string) :
  Json.run ps (String c EmptyString ++ s)%string = Json.run (Json.step ps c) s.
Proof. reflexivity. Qed.

Lemma run_cons (ps : Json.pstate) (c : ascii) (s : string) :
  Json.run ps (String c s) = Json.run (Json.step ps c) s.
Proof. reflexivity. Qed.

(** Reading back what [escape_char] wrote gives the character: one case per
    code unit. *)
Lemma run_escape_char (stk : list Json.frame) (k : bool) (acc : list ascii) (c : ascii) :
  Json.run (stk, Json.MString k acc) (Json.escape_char c) = (stk, Json.MString k (c :: acc)).
Proof. destruct c as [[] [] [] [] [] [] [] []]; reflexivity. Qed.

Lemma run_escape (stk : list Json.frame) (k : bool) (s : string) (acc : list ascii) :
  Json.run (stk, Json.MString k acc) (Json.escape s)
  = (stk, Json.MString k (rev (list_ascii_of_string s) ++ acc)).
Proof.
  revert acc. induction s as [| c s IH]; intros acc; [reflexivity |].
  change (Json.escape (String c s)) with (Json.escape_char c ++ Json.escape s)%string.
  rewrite run_app, run_escape_char, IH. cbn [list_ascii_of_string rev].
  rewrite <- app_assoc. reflexivity.
Qed.

Lemma text_rev (s : string) : Json.text (rev (list_ascii_of_string s) ++ []) = s.
Proof.
  unfold Json.text. rewrite app_nil_r, rev_involutive. apply string_of_list_ascii_of_string.
Qed.

Lemma run_quote_value (stk : list Json.frame) (first : bool) (s : string) :
  Json.run (stk, Json.MValue first) (Json.quote s) = Json.deliver (Json.JStr s) stk.
Proof.
  unfold Json.quote. rewrite run_cons.
  change (Json.step (stk, Json.MValue first) Json.dquote) with (stk, Json.MString false []).
  rewrite run_app, run_escape. cbn [Json.run].
  change (Json.step (stk, Json.MString false (rev (list_ascii_of_string s) ++ [])) Json.dquote)
    with (Json.deliver (Json.JStr (Json.text (rev (list_ascii_of_string s) ++ []))) stk).
  rewrite text_rev. reflexivity.
Qed.

Lemma run_quote_key (stk : list Json.frame) (done : list (string * Json.value))
    (first : bool) (s : string) :
  Json.run (Json.FObj done None :: stk, Json.MKey first) (Json.quote s)
  = (Json.FObj done (Some s) :: stk, Json.MColon).
Proof.
  unfold Json.quote. rewrite run_cons.
  change (Json.step (Json.FObj done None :: stk, Json.MKey first) Json.dquote)
    with (Json.FObj done None :: stk, Json.MString true []).
  rewrite run_app, run_escape. cbn [Json.run].
  change (Json.step (Json.FObj done None :: stk,
                     Json.MString true (rev (list_ascii_of_string s) ++ [])) Json.dquote)
    with (Json.FObj done (Some (Json.text (rev (list_ascii_of_string s) ++ []))) :: stk,
          Json.MColon).
  rewrite text_rev. reflexivity.
Qed.

Lemma run_member (stk : list Json.frame) (done : list (string * Json.value))
    (first : bool) (k v : string) :
  Json.run (Json.FObj done None :: stk, Json.MKey first) (Json.member k v)
  = (Json.FObj ((k, Json.JStr v) :: done) None :: stk, Json.MAfter).
Proof.
  unfold Json.member. rewrite run_app, run_quote_key, run_lit.
  change (Json.step (Json.FObj done (Some k) :: stk, Json.MColon) ":")
    with (Json.FObj done (Some k) :: stk, Json.MValue false).
  apply run_quote_value.
Qed.

Lemma run_stringify_user (stk : list Json.frame) (first : bool) (u : User) :
  Json.run (stk, Json.MValue first) (Json.stringify_user u)
  = Json.deliver (Json.of_user u) stk.
Proof.
  unfold Json.stringify_user. rewrite run_lit.
  change (Json.step (stk, Json.MValue first) "{") with (Json.FObj [] None :: stk, Json.MKey true).
  rewrite run_app, run_member.
  do 4 (rewrite run_lit;
        match goal with |- Json.run (Json.step (?f :: _, Json.MAfter) _) _ = _ =>
          change (Json.step (f :: stk, Json.MAfter) ",") with (f :: stk, Json.MKey false) end;
        rewrite run_app, run_member).
  reflexivity.
Qed.

Lemma run_join_comma (done : list Json.value) (first : bool) (u : User) (us : list User) :
  Json.run ([Json.FArr done], Json.MValue first)
           (Json.join_comma (map Json.stringify_user (u :: us)))
  = ([Json.FArr (rev (map Json.of_user (u :: us)) ++ done)], Json.MAfter).
Proof.
  revert done first u. induction us as [| u' us IH]; intros done first u.
  - cbn [map Json.join_comma]. rewrite run_stringify_user. reflexivity.
  - change (Json.join_comma (map Json.stringify_user (u :: u' :: us)))
      with (Json.stringify_user u ++ ","
            ++ Json.join_comma (map Json.stringify_user (u' :: us)))%string.
    rewrite run_app, run_stringify_user. cbn [Json.deliver]. rewrite run_lit.
    change (Json.step ([Json.FArr (Json.of_user u :: done)], Json.MAfter) ",")
      with ([Json.FArr (Json.of_user u :: done)], Json.MValue false).
    rewrite IH. cbn [map rev]. rewrite <- !app_assoc. reflexivity.
Qed.

Lemma as_user_of_user (u : User) : Json.as_user (Json.of_user u) = Some u.
Proof. destruct u. reflexivity. Qed.

Lemma as_users_of_users (us : list User) :
  Json.as_users (Json.JArr (map Json.of_user us)) = Some us.
Proof.
  cbn [Json.as_users]. induction us as [| u us IH]; [reflexivity |].
  cbn [map mapM]. rewrite as_user_of_user, IH. reflexivity.
Qed.

(** [JSON.parse(JSON.stringify(h))] is [h] again, for every [User[]]. *)
Lemma parse_stringify (us : list User) :
  Json.parse (Json.stringify us) = Json.Parsed (Json.JArr (map Json.of_user us)).
Proof.
  unfold Json.parse, Json.stringify. rewrite run_lit.
  change (Json.step ([], Json.MValue false) "[") with ([Json.FArr []], Json.MValue true).
  destruct us as [| u us]; [reflexivity |].
  rewrite run_app, run_join_comma. cbn [Json.run]. rewrite app_nil_r.
  change (Json.step ([Json.FArr (rev (map Json.of_user (u :: us)))], Json.MAfter) "]")
    with (Json.deliver (Json.JArr (rev (rev (map Json.of_user (u :: us))))) []).
  rewrite rev_involutive. reflexivity.
Qed.

Lemma stringify_not_empty (us : list User) : Json.stringify us <> EmptyString.
Proof. discriminate. Qed.

Example parse_samples :
  Json.parse "[]" = Json.Parsed (Json.JArr [])
  /\ Json.parse " [ 1 , -2.5e+3 , true , null , {} ] "
     = Json.Parsed (Json.JArr [Json.JNum "1"; Json.JNum "-2.5e+3"; Json.JBool true;
                               Json.JNull; Json.JObj []])
  /\ Json.parse EmptyString = Json.Throws
  /\ Json.parse "{oops" = Json.Throws
  /\ Json.parse "[1,]" = Json.Throws
  /\ Json.parse "01" = Json.Throws
  /\ Json.parse "[] []" = Json.Throws.
Proof. repeat split. Qed.

(** ** Re-rendering *)

Lemma commit_ui (w : World) : ui (commit w) = ui w.
Proof. unfold commit. destruct (historyStale w); reflexivity. Qed.

Lemma commit_nextAddr (w : World) : nextAddr (commit w) = nextAddr w.
Proof. unfold commit. destruct (historyStale w); reflexivity. Qed.

Lemma commit_console (w : World) : console (commit w) = console w.
Proof. unfold commit. destruct (historyStale w); reflexivity. Qed.

Lemma commit_clipboard (w : World) : clipboard (commit w) = clipboard w.
Proof. unfold commit. destruct (historyStale w); reflexivity. Qed.

Lemma commit_alerts (w : World) : alerts (commit w) = alerts w.
Proof. unfold commit. destruct (historyStale w); reflexivity. Qed.

Lemma commit_historyStale (w : World) : historyStale (commit w) = false.
Proof. unfold commit. destruct (historyStale w) eqn:H; [reflexivity | exact H]. Qed.

Create Rewrite HintDb world.
#[local] Hint Rewrite commit_ui commit_nextAddr commit_console commit_clipboard
  commit_alerts commit_historyStale : world.

Lemma dispatch_ui (e : Event) (w : World) : ui (dispatch e w) = ui (handle e w).
Proof. apply commit_ui. Qed.

Lemma run_cat (es1 es2 : list Event) (w : World) :
  run (es1 ++ es2) w = run es2 (run es1 w).
Proof. apply fold_left_app. Qed.

Lemma run_step (e : Event) (es : list Event) (w : World) :
  run (e :: es) w = run es (dispatch e w).
Proof. reflexivity. Qed.

Lemma fetchRandomUser_ui (r : Response) (w : World) :
  ui (fetchRandomUser r w) = ui (fetch_resume r (commit (fetch_begin w))).
Proof. unfold fetchRandomUser. rewrite dispatch_ui. reflexivity. Qed.

(** ** The fetch cycle *)

Example newUser_janeDoe : newUser (Body [janeDoe; johnSmith]) = inr janeUser.
Proof. reflexivity. Qed.

(** The ways in which the [try] block throws. *)
Example newUser_failures :
  newUser Rejects = inl NetworkError /\ newUser BadBody = inl BodyError
  /\ newUser NoResults = inl TypeError /\ newUser (Body []) = inl TypeError.
Proof. repeat split. Qed.

(** What a settled call leaves behind, whatever happened since it began. *)
Lemma fetch_resume_failure (r : Response) (w : World) (e : Exn) :
  newUser r = inl e ->
  ui (fetch_resume r w) =
    {| user := user (ui w); loading := false; error := Some failureMessage;
       userHistory := userHistory (ui w); favorites := favorites (ui w);
       searchTerm := searchTerm (ui w) |}
  /\ console (fetch_resume r w) = console w ++ [e]
  /\ localStorage (fetch_resume r w) = localStorage w
  /\ historyStale (fetch_resume r w) = historyStale w.
Proof. intros H. unfold fetch_resume. rewrite H. repeat split. Qed.

Lemma fetch_resume_success (r : Response) (w : World) (u : User) :
  newUser r = inr u ->
  ui (fetch_resume r w) =
    {| user := Some (mkObj (nextAddr w) u); loading := false; error := error (ui w);
       userHistory := userHistory (ui w) ++ [mkObj (nextAddr w) u];
       favorites := favorites (ui w); searchTerm := searchTerm (ui w) |}
  /\ console (fetch_resume r w) = console w.
Proof. intros H. unfold fetch_resume. rewrite H. split; reflexivity. Qed.

(** C1, as stated, fails: a successful fetch followed by a failed one leaves
    both the person of the first call and the error of the second. *)
Lemma success_then_failure_shows_both :
  ~ exactly_one_of (ui (run (fetches [Body [janeDoe]; Rejects]) (initialWorld emptyStorage))).
Proof.
  intros [[_ H] | [H _]]; apply H; vm_compute; eexists; reflexivity.
Qed.

(** C1 (amended): when a call of [fetchRandomUser] has completed, a success
    has set the current person to the new object and left no error; a failure
    has set the error message and left the current person as it was.  So at
    least one of the two is set, and exactly one is set unless the call
    failed while a person was already displayed. *)
Theorem fetch_sets_user_or_error (r : Response) (w : World) :
  let s' := ui (fetchRandomUser r w) in
  match newUser r with
  | inr u => user s' = Some (mkObj (nextAddr w) u) /\ error s' = None
  | inl _ => error s' = Some failureMessage /\ user s' = user (ui w)
  end
  /\ (populated s' \/ errored s')
  /\ (exactly_one_of s' <-> ~ (failed r = true /\ populated (ui w))).
Proof.
  cbn zeta. rewrite fetchRandomUser_ui. unfold failed.
  destruct (newUser r) as [e | u] eqn:Hr.
  - destruct (fetch_resume_failure r (commit (fetch_begin w)) e Hr) as (-> & _).
    autorewrite with world. cbn.
    split; [split; reflexivity |]. split; [right; eexists; reflexivity |].
    unfold exactly_one_of, populated, errored; cbn. split.
    + intros [[_ Hn] | [Hn _]] [_ Hp]; [apply Hn; eexists; reflexivity | exact (Hn Hp)].
    + intros Hn. right. split; [| eexists; reflexivity].
      intros Hp. apply Hn. split; [reflexivity | exact Hp].
  - destruct (fetch_resume_success r (commit (fetch_begin w)) u Hr) as (-> & _).
    autorewrite with world. cbn.
    split; [split; reflexivity |]. split; [left; eexists; reflexivity |].
    unfold exactly_one_of, populated, errored; cbn. split.
    + intros _ [Hf _]. discriminate Hf.
    + intros _. left. split; [eexists; reflexivity |]. intros [x Hx]. discriminate Hx.
Qed.

(** When calls overlap, even a success can end with an error on display:
    the message of the call that failed in between is not cleared. *)
Example overlapping_success_keeps_error :
  let w := run [FetchClicked; FetchClicked; FetchSettled Rejects; FetchSettled (Body [janeDoe])]
               (initialWorld emptyStorage) in
  populated (ui w) /\ error (ui w) = Some failureMessage /\ loading (ui w) = false.
Proof. cbn zeta. split; [eexists; reflexivity |]. split; reflexivity. Qed.

(** C2: a failing fetch is caught.  The loading flag is true once the call
    has begun and false once it has ended, the error is the fixed non-empty
    message, the current person is the one from before the call, and the
    exception has been logged. *)
Theorem failed_fetch_is_caught (r : Response) (w : World) (e : Exn) :
  newUser r = inl e ->
  loading (ui (dispatch FetchClicked w)) = true
  /\ loading (ui (fetchRandomUser r w)) = false
  /\ error (ui (fetchRandomUser r w)) = Some failureMessage
  /\ failureMessage <> EmptyString
  /\ user (ui (fetchRandomUser r w)) = user (ui w)
  /\ console (fetchRandomUser r w) = console w ++ [e].
Proof.
  intros Hr. rewrite dispatch_ui, fetchRandomUser_ui.
  unfold fetchRandomUser, dispatch. rewrite commit_console.
  destruct (fetch_resume_failure r (commit (handle FetchClicked w)) e Hr) as (Hui & Hc & _).
  cbn [handle] in *. rewrite Hui, Hc, commit_ui, commit_console. cbn.
  repeat split. discriminate.
Qed.

Lemma failed_fetch_is_caught_witness :
  newUser Rejects = inl NetworkError
  /\ loading (ui (fetchRandomUser Rejects (initialWorld emptyStorage))) = false
  /\ error (ui (fetchRandomUser Rejects (initialWorld emptyStorage))) = Some failureMessage.
Proof.
  split; [reflexivity |].
  pose proof (failed_fetch_is_caught Rejects (initialWorld emptyStorage) NetworkError eq_refl)
    as (_ & Hl & He & _).
  split; [exact Hl | exact He].
Defined.

(** C10: a failed fetch changes neither the history nor the favorites,
    whether one looks at the whole call or only at the part that runs once
    the promises have settled; that part writes nothing to storage and
    schedules no write. *)
Theorem failed_fetch_keeps_collections (r : Response) (w : World) (e : Exn) :
  newUser r = inl e ->
  userHistory (ui (fetchRandomUser r w)) = userHistory (ui w)
  /\ favorites (ui (fetchRandomUser r w)) = favorites (ui w)
  /\ userHistory (ui (fetch_resume r w)) = userHistory (ui w)
  /\ favorites (ui (fetch_resume r w)) = favorites (ui w)
  /\ localStorage (fetch_resume r w) = localStorage w
  /\ historyStale (fetch_resume r w) = historyStale w.
Proof.
  intros Hr. rewrite fetchRandomUser_ui.
  destruct (fetch_resume_failure r (commit (fetch_begin w)) e Hr) as (-> & _).
  destruct (fetch_resume_failure r w e Hr) as (-> & _ & -> & ->).
  rewrite commit_ui. repeat split.
Qed.

Lemma failed_fetch_keeps_collections_witness :
  let w := fetchRandomUser (Body [janeDoe]) (initialWorld emptyStorage) in
  newUser BadBody = inl BodyError
  /\ userHistory (ui (fetchRandomUser BadBody w)) = userHistory (ui w)
  /\ length (userHistory (ui w)) = 1.
Proof.
  cbn zeta. split; [reflexivity |].
  pose proof (failed_fetch_keeps_collections BadBody
                (fetchRandomUser (Body [janeDoe]) (initialWorld emptyStorage))
                BodyError eq_refl) as (Hh & _).
  split; [exact Hh | reflexivity].
Defined.

(** ** Clipboard *)


Example copyUserInfo_janeDoe :
  clipboard (copyUserInfo (fetchRandomUser (Body [janeDoe]) (initialWorld emptyStorage))) =
  [("Name: Jane Doe" ++ newline ++ "Email: jane@x.com" ++ newline
    ++ "Address: 8929 Valwood Pkwy, Billings, United States")%string].
Proof. reflexivity. Qed.

Example copyUserInfo_before_first_fetch :
  copyUserInfo (initialWorld emptyStorage) = initialWorld emptyStorage.
Proof. reflexivity. Qed.

(** ** Favorites *)

Lemma toggleFavorite_favorites (p : Obj) (w : World) :
  favorites (ui (toggleFavorite p w)) =
  if arr_includes (favorites (ui w)) p then without p (favorites (ui w))
  else favorites (ui w) ++ [p].
Proof. unfold toggleFavorite. destruct (arr_includes _ _); reflexivity. Qed.

Lemma same_ref_sym (a b : Obj) : same_ref a b = same_ref b a.
Proof. apply Nat.eqb_sym. Qed.

Lemma same_ref_refl (a : Obj) : same_ref a a = true.
Proof. apply Nat.eqb_refl. Qed.

Lemma arr_includes_app (l1 l2 : list Obj) (p : Obj) :
  arr_includes (l1 ++ l2) p = arr_includes l1 p || arr_includes l2 p.
Proof. apply existsb_app. Qed.

Lemma arr_includes_without_self (p : Obj) (l : list Obj) :
  arr_includes (without p l) p = false.
Proof.
  unfold arr_includes, without. induction l as [| x l IH]; [reflexivity |].
  cbn. destruct (same_ref x p) eqn:Hx; cbn; [exact IH |].
  rewrite (same_ref_sym p x), Hx. exact IH.
Qed.

Lemma without_absent (p : Obj) (l : list Obj) :
  arr_includes l p = false -> without p l = l.
Proof.
  unfold arr_includes, without. induction l as [| x l IH]; [reflexivity |].
  cbn. intros H. apply orb_false_elim in H as [Hx Hl].
  rewrite (same_ref_sym x p), Hx. cbn. f_equal. exact (IH Hl).
Qed.

Lemma arr_includes_without_other (p q : Obj) (l : list Obj) :
  same_ref q p = false -> arr_includes (without p l) q = arr_includes l q.
Proof.
  intros Hqp. unfold arr_includes, without. induction l as [| x l IH]; [reflexivity |].
  cbn. destruct (same_ref x p) eqn:Hx; cbn.
  - rewrite IH. unfold same_ref in *.
    apply Nat.eqb_eq in Hx. rewrite Hx, Hqp. reflexivity.
  - rewrite IH. reflexivity.
Qed.

Lemma without_app (p : Obj) (l1 l2 : list Obj) :
  without p (l1 ++ l2) = without p l1 ++ without p l2.
Proof. apply List.filter_app. Qed.

(** C3, as stated, fails when the person is already a favorite and is not
    the last one: with favorites alice, bob (reached by favoriting them in
    that order), toggling alice twice yields bob, alice. *)
Lemma toggle_twice_moves_to_end :
  let w := run [FavoriteClicked alice; FavoriteClicked bob] (initialWorld emptyStorage) in
  favorites (ui w) = [alice; bob]
  /\ favorites (ui (toggleFavorite alice (toggleFavorite alice w))) = [bob; alice]
  /\ favorites (ui (toggleFavorite alice (toggleFavorite alice w))) <> favorites (ui w).
Proof. cbn zeta. split; [reflexivity |]. split; [reflexivity |]. vm_compute. discriminate. Qed.

(** C3 (amended): toggling the same reference twice restores the favorites
    exactly when the person was not a favorite; when it was, the result is
    the favorites without that reference, in their old order, followed by
    the person.  In both cases the same references are favorites as before. *)
Theorem toggleFavorite_twice (p : Obj) (w : World) :
  let f := favorites (ui w) in
  let f'' := favorites (ui (toggleFavorite p (toggleFavorite p w))) in
  (if arr_includes f p then f'' = without p f ++ [p] else f'' = f)
  /\ (forall q, arr_includes f'' q = arr_includes f q).
Proof.
  cbn zeta. rewrite !toggleFavorite_favorites.
  destruct (arr_includes (favorites (ui w)) p) eqn:Hin.
  - rewrite arr_includes_without_self. split; [reflexivity |].
    intros q. rewrite arr_includes_app. cbn. rewrite orb_false_r.
    destruct (same_ref q p) eqn:Hq.
    + rewrite orb_true_r. symmetry. unfold arr_includes in *.
      apply existsb_exists in Hin as (x & Hx & Hpx).
      apply existsb_exists. exists x. split; [exact Hx |].
      unfold same_ref in *. apply Nat.eqb_eq in Hq, Hpx. apply Nat.eqb_eq. congruence.
    + rewrite orb_false_r. apply arr_includes_without_other. exact Hq.
  - rewrite arr_includes_app. cbn. rewrite same_ref_refl, orb_true_r.
    assert (Hf : without p (favorites (ui w) ++ [p]) = favorites (ui w)).
    { rewrite without_app, (without_absent _ _ Hin). cbn.
      rewrite same_ref_refl. cbn. apply app_nil_r. }
    rewrite Hf. split; [reflexivity | reflexivity].
Qed.

(** Only [toggleFavorite] writes the favorites. *)
Lemma handle_favorites (e : Event) (w : World) :
  favorites (ui (handle e w)) =
  match e with
  | FavoriteClicked p => favorites (ui (toggleFavorite p w))
  | _ => favorites (ui w)
  end.
Proof.
  destruct e as [| r | p | | | v]; try reflexivity.
  - cbn. unfold fetch_resume. destruct (newUser r); reflexivity.
  - cbn. unfold copyUserInfo. destruct (user (ui w)); reflexivity.
Qed.

Lemma NoDup_addr_without (p : Obj) (l : list Obj) :
  NoDup (map addr l) -> NoDup (map addr (without p l)).
Proof.
  unfold without. induction l as [| x l IH]; [intros; constructor |].
  cbn. intros H. apply NoDup_cons in H as [Hx Hl].
  destruct (same_ref x p); cbn; [exact (IH Hl) |].
  apply NoDup_cons. split; [| exact (IH Hl)].
  intros Hin. apply Hx.
  apply list_elem_of_fmap in Hin as (y & Hy & Hyin).
  apply list_elem_of_fmap. exists y. split; [exact Hy |].
  apply list_elem_of_In. apply list_elem_of_In in Hyin.
  apply List.filter_In in Hyin as [Hyin _]. exact Hyin.
Qed.

Lemma arr_includes_false_addr (p : Obj) (l : list Obj) :
  arr_includes l p = false -> addr p ∉ map addr l.
Proof.
  unfold arr_includes. induction l as [| x l IH]; cbn; intros H Hin.
  - inversion Hin.
  - apply orb_false_elim in H as [Hx Hl].
    apply elem_of_cons in Hin as [Heq | Hin]; [| exact (IH Hl Hin)].
    unfold same_ref in Hx. apply Nat.eqb_neq in Hx. exact (Hx Heq).
Qed.

Lemma toggleFavorite_NoDup (p : Obj) (w : World) :
  NoDup (map addr (favorites (ui w))) ->
  NoDup (map addr (favorites (ui (toggleFavorite p w)))).
Proof.
  intros H. rewrite toggleFavorite_favorites.
  destruct (arr_includes (favorites (ui w)) p) eqn:Hin.
  - apply NoDup_addr_without. exact H.
  - rewrite map_app. cbn. apply NoDup_app. split; [exact H |]. split.
    + intros a Ha Hp. apply list_elem_of_singleton in Hp. subst a.
      exact (arr_includes_false_addr _ _ Hin Ha).
    + apply NoDup_singleton.
Qed.

(** C9: no reference occurs twice among the favorites.  The property holds
    of the empty list the component starts with (see the witness) and every
    event, [toggleFavorite] included, preserves it. *)
Theorem favorites_never_repeat (w : World) (es : list Event) :
  NoDup (map addr (favorites (ui w))) ->
  NoDup (map addr (favorites (ui (run es w)))).
Proof.
  revert w. induction es as [| e es IH]; intros w H; [exact H |].
  rewrite run_step. apply IH. rewrite dispatch_ui, handle_favorites.
  destruct e; try exact H. apply toggleFavorite_NoDup. exact H.
Qed.

Lemma favorites_never_repeat_witness :
  let es := [FavoriteClicked alice; FavoriteClicked bob; FavoriteClicked alice;
             FavoriteClicked alice; FavoriteClicked bob; FavoriteClicked bob] in
  favorites (ui (initialWorld emptyStorage)) = []
  /\ favorites (ui (run es (initialWorld emptyStorage))) = [alice; bob]
  /\ NoDup (map addr (favorites (ui (run es (initialWorld emptyStorage))))).
Proof.
  cbn zeta. split; [reflexivity |]. split; [reflexivity |].
  apply (favorites_never_repeat (initialWorld emptyStorage)). constructor.
Defined.

(** ** History *)

Lemma handle_userHistory (e : Event) (w : World) :
  is_clear e = false ->
  userHistory (ui (handle e w)) = userHistory (ui w) ++ appended e w.
Proof.
  destruct e as [| r | p | | | v]; cbn; intros H; try discriminate;
    try (rewrite app_nil_r; reflexivity).
  - unfold fetch_resume. destruct (newUser r); cbn; [rewrite app_nil_r |]; reflexivity.
  - unfold toggleFavorite. destruct (arr_includes _ _); cbn; rewrite app_nil_r; reflexivity.
  - unfold copyUserInfo. destruct (user (ui w)); cbn; rewrite app_nil_r; reflexivity.
Qed.

Lemma appended_length (e : Event) (w : World) :
  length (appended e w) = successes [e].
Proof.
  destruct e as [| r | p | | | v]; try reflexivity.
  cbn. unfold failed. destruct (newUser r); reflexivity.
Qed.

Lemma successes_cons (e : Event) (es : list Event) :
  successes (e :: es) = successes [e] + successes es.
Proof. destruct e; cbn; lia. Qed.

Lemma run_history_no_clear (es : list Event) (w : World) :
  no_clear es = true ->
  exists added, userHistory (ui (run es w)) = userHistory (ui w) ++ added
                /\ length added = successes es.
Proof.
  revert w. induction es as [| e es IH]; intros w H.
  - exists []. split; [symmetry; apply app_nil_r | reflexivity].
  - cbn in H. apply andb_prop in H as [He Hes].
    apply negb_true_iff in He.
    destruct (IH (dispatch e w) Hes) as (added & Hrun & Hlen).
    exists (appended e w ++ added). split.
    + rewrite run_step, Hrun, dispatch_ui, (handle_userHistory e w He), app_assoc.
      reflexivity.
    + rewrite length_app, appended_length, Hlen. symmetry. apply successes_cons.
Qed.

Lemma successes_fetches (rs : list Response) :
  forallb (fun r => negb (failed r)) rs = true -> successes (fetches rs) = length rs.
Proof.
  induction rs as [| r rs IH]; [reflexivity |].
  cbn. intros H. apply andb_prop in H as [Hr Hrs].
  apply negb_true_iff in Hr. rewrite Hr. cbn. f_equal. exact (IH Hrs).
Qed.

Lemma no_clear_fetches (rs : list Response) : no_clear (fetches rs) = true.
Proof. induction rs as [| r rs IH]; [reflexivity | exact IH]. Qed.

(** C4: along any run of events without a clear, the history keeps what it
    held (as a prefix, in the same order) and its length grows by the number
    of successful fetches; a successful fetch appends exactly its new person
    at the end.  So after N successful fetches the length is N plus the
    length the history had at first. *)
Theorem history_grows_by_successes (w : World) (es : list Event) :
  no_clear es = true ->
  length (userHistory (ui (run es w))) = successes es + length (userHistory (ui w))
  /\ userHistory (ui w) `prefix_of` userHistory (ui (run es w))
  /\ (forall r, match newUser r with
                | inr u => userHistory (ui (fetchRandomUser r (run es w))) =
                           userHistory (ui (run es w)) ++ [mkObj (nextAddr (run es w)) u]
                | inl _ => True
                end)
  /\ (forall rs, forallb (fun r => negb (failed r)) rs = true ->
                 length (userHistory (ui (run (fetches rs) w))) =
                 length rs + length (userHistory (ui w))).
Proof.
  intros H. destruct (run_history_no_clear es w H) as (added & Hrun & Hlen).
  split; [rewrite Hrun, length_app; lia |].
  split; [exists added; exact Hrun |]. split.
  - intros r. destruct (newUser r) as [e | u] eqn:Hr; [exact I |].
    rewrite fetchRandomUser_ui.
    destruct (fetch_resume_success r (commit (fetch_begin (run es w))) u Hr) as (-> & _).
    autorewrite with world. reflexivity.
  - intros rs Hrs.
    destruct (run_history_no_clear (fetches rs) w (no_clear_fetches rs)) as (a & Ha & Hl).
    rewrite Ha, length_app, Hl, (successes_fetches rs Hrs). lia.
Qed.

Lemma history_grows_by_successes_witness :
  no_clear sampleTrace = true /\ successes sampleTrace = 3
  /\ length (userHistory (ui (run sampleTrace (initialWorld emptyStorage)))) = 3.
Proof.
  split; [reflexivity |]. split; [reflexivity |].
  exact (proj1 (history_grows_by_successes (initialWorld emptyStorage) sampleTrace eq_refl)).
Defined.

(** A clear is the one event that shortens the history. *)
Example clear_resets_history :
  userHistory (ui (run (sampleTrace ++ [ClearClicked]) (initialWorld emptyStorage))) = [].
Proof. rewrite run_cat. reflexivity. Qed.

(** ** Search *)

(** The test of lines 106-107 decides case-insensitive containment. *)
Lemma includes_toLowerCase_spec (s term : string) :
  JsString.includes (JsString.toLowerCase s) (JsString.toLowerCase term) = true
  <-> contains_ci s term.
Proof.
  rewrite includes_spec. unfold contains_ci, eq_ignore_case. split.
  - intros (pre & post & H).
    apply toLowerCase_split in H as (s1 & s23 & -> & H1 & H23).
    apply toLowerCase_split in H23 as (s2 & s3 & -> & H2 & H3).
    exists s1, s2, s3. split; [reflexivity | exact H2].
  - intros (pre & mid & post & -> & H).
    exists (JsString.toLowerCase pre), (JsString.toLowerCase post).
    rewrite !toLowerCase_app, H. reflexivity.
Qed.

Lemma matches_spec (term : string) (u : Obj) :
  matches term u = true <-> entry_matches term u.
Proof.
  unfold matches, entry_matches.
  rewrite orb_true_iff, !includes_toLowerCase_spec. reflexivity.
Qed.


(** [Keeps] determines its result. *)
Lemma Keeps_unique {A : Type} (P : A -> Prop) (l l1 l2 : list A) :
  Keeps P l l1 -> Keeps P l l2 -> l1 = l2.
Proof.
  intros H1. revert l2. induction H1 as [| x l l1 Hp _ IH | x l l1 Hn _ IH]; intros l2 H2.
  - inversion H2. reflexivity.
  - inversion H2 as [| ? ? l2' _ H2' | ? ? ? Hn' _]; subst; [| contradiction].
    f_equal. exact (IH _ H2').
  - inversion H2 as [| ? ? ? Hp' _ | ? ? ? _ H2']; subst; [contradiction |].
    exact (IH _ H2').
Qed.




(** The scenario of the specification: the term "jane" keeps Jane Doe and
    drops John Smith. *)
Example search_jane :
  map (fun u => name (fields u))
      (filteredHistory (with_search "jane" (historyOf [janeDoe; johnSmith])))
  = ["Jane Doe"%string].
Proof. reflexivity. Qed.

Example search_is_case_insensitive :
  map (fun u => name (fields u))
      (filteredHistory (with_search "SMITH@EXAMPLE" (historyOf [janeDoe; johnSmith])))
  = ["John Smith"%string]
  /\ filteredHistory (with_search "nobody" (historyOf [janeDoe; johnSmith])) = [].
Proof. split; reflexivity. Qed.

(** ** Persistence *)

Ltac unfold_mount :=
  unfold mount, loadHistory; cbn [localStorage initialWorld].

Lemma fields_alloc_all (base : nat) (us : list User) :
  map fields (alloc_all base us) = us.
Proof.
  unfold alloc_all. revert base. induction us as [| u us IH]; intros base; [reflexivity |].
  rewrite imap_cons. cbn. f_equal.
  rewrite <- (IH (S base)) at 2. f_equal. apply imap_ext. intros i x _. cbn.
  f_equal. lia.
Qed.


Lemma mount_with_history (storage : gmap string string) (s : string) (v : Json.value)
    (us : list User) :
  storage !! storageKey = Some s -> s <> EmptyString ->
  Json.parse s = Json.Parsed v -> Json.as_users v = Some us ->
  mounted_with storage us.
Proof.
  intros Hs Hne Hp Hu. unfold mounted_with. unfold_mount.
  rewrite Hs, (bool_decide_eq_false_2 _ Hne), Hp, Hu.
  eexists. split; [reflexivity |]. cbn.
  split; [apply fields_alloc_all |].
  split; [rewrite lookup_insert_eq, fields_alloc_all; reflexivity |]. repeat split.
Qed.

(** C6: clearing empties the history, and the re-render that follows writes
    the empty array under the storage key, so that reading the key back (or
    mounting the component again) yields an empty array.  Favorites, the
    current person, the flags, the search term and everything outside
    storage are as before, and so are the other keys of the storage. *)
Theorem clearHistory_clears_history_and_storage (w : World) :
  let w' := dispatch ClearClicked w in
  userHistory (ui w') = []
  /\ localStorage w' !! storageKey = Some "[]"%string
  /\ readHistory (localStorage w') = Some (Json.Parsed (Json.JArr []))
  /\ mounted_with (localStorage w') []
  /\ favorites (ui w') = favorites (ui w)
  /\ user (ui w') = user (ui w) /\ loading (ui w') = loading (ui w)
  /\ error (ui w') = error (ui w) /\ searchTerm (ui w') = searchTerm (ui w)
  /\ clipboard w' = clipboard w /\ alerts w' = alerts w /\ console w' = console w
  /\ delete storageKey (localStorage w') = delete storageKey (localStorage w).
Proof.
  cbn zeta.
  assert (Hls : localStorage (dispatch ClearClicked w)
                = <[storageKey := "[]"%string]> (localStorage w)) by reflexivity.
  rewrite Hls.
  assert (Hl : <[storageKey := "[]"%string]> (localStorage w) !! storageKey = Some "[]"%string)
    by apply lookup_insert_eq.
  split; [reflexivity |]. split; [exact Hl |].
  split; [unfold readHistory; rewrite Hl; reflexivity |].
  split.
  { eapply (mount_with_history _ "[]"%string (Json.JArr []) []);
      [exact Hl | discriminate | reflexivity | reflexivity]. }
  repeat (split; [reflexivity |]). apply delete_insert_eq.
Qed.

Example janeStored_is_written_by_the_component :
  localStorage (fetchRandomUser (Body [janeDoe]) (initialWorld emptyStorage)) !! storageKey
  = Some janeStored
  /\ Json.stringify [janeUser] = janeStored.
Proof. split; vm_compute; reflexivity. Qed.



Example malformed_history_is_uncaught :
  mount {[ storageKey := "{oops"%string ]} = Uncaught SyntaxError.
Proof. vm_compute. reflexivity. Qed.

Example stored_history_of_length_one :
  match mount {[ storageKey := janeStored ]} with
  | Done w => length (userHistory (ui w)) = 1 /\ loading (ui w) = true
  | _ => False
  end.
Proof. vm_compute. split; reflexivity. Qed.

(** ** The history survives a reload *)

Lemma commit_synced (w : World) :
  historyStale w = true
  \/ localStorage w !! storageKey
     = Some (Json.stringify (map fields (userHistory (ui w)))) ->
  synced (commit w).
Proof.
  intros H. split; [| apply commit_historyStale].
  unfold commit. destruct (historyStale w) eqn:Hs.
  - cbn. apply lookup_insert_eq.
  - destruct H as [H | H]; [discriminate H | exact H].
Qed.

Lemma handle_storage (e : Event) (w : World) :
  historyStale (handle e w) = true
  \/ (localStorage (handle e w) = localStorage w
      /\ userHistory (ui (handle e w)) = userHistory (ui w)).
Proof.
  destruct e as [| r | p | | | v]; cbn.
  - right. split; reflexivity.
  - unfold fetch_resume. destruct (newUser r); [right | left]; repeat split.
  - right. unfold toggleFavorite. destruct (arr_includes _ _); split; reflexivity.
  - right. unfold copyUserInfo. destruct (user (ui w)); split; reflexivity.
  - left. reflexivity.
  - right. split; reflexivity.
Qed.

Lemma dispatch_synced (e : Event) (w : World) : synced w -> synced (dispatch e w).
Proof.
  intros [Hs _]. apply commit_synced.
  destruct (handle_storage e w) as [H | [Hl Hh]]; [left; exact H | right].
  rewrite Hl, Hh. exact Hs.
Qed.

Lemma run_synced (es : list Event) (w : World) : synced w -> synced (run es w).
Proof.
  revert w. induction es as [| e es IH]; intros w H; [exact H |].
  rewrite run_step. apply IH, dispatch_synced, H.
Qed.

Lemma mount_synced (storage : gmap string string) (w : World) :
  mount storage = Done w -> synced w.
Proof.
  unfold mount. destruct (loadHistory (initialWorld storage)) as [w1 | |] eqn:Hl;
    try discriminate.
  intros H. injection H as <-. apply commit_synced.
  revert Hl. unfold_mount.
  destruct (storage !! storageKey) as [s |].
  - destruct (bool_decide (s = EmptyString)).
    + intros H. injection H as <-. right. cbn. apply lookup_insert_eq.
    + destruct (Json.parse s) as [v | |]; try discriminate.
      destruct (Json.as_users v) as [us |]; try discriminate.
      intros H. injection H as <-. left. reflexivity.
  - intros H. injection H as <-. right. cbn. apply lookup_insert_eq.
Qed.

(** X3: whatever happens after mounting, the storage holds a text from which
    a later mount restores the same people, in the same order. *)
Lemma reload_restores_history (storage : gmap string string) (w : World)
    (es : list Event) :
  mount storage = Done w ->
  mounted_with (localStorage (run es w)) (map fields (userHistory (ui (run es w)))).
Proof.
  intros Hm. destruct (run_synced es w (mount_synced storage w Hm)) as [Hs _].
  eapply mount_with_history; [exact Hs | apply stringify_not_empty | apply parse_stringify
                              | apply as_users_of_users].
Qed.

Example mountedEmpty_is_mounted : mount emptyStorage = Done mountedEmpty.
Proof. reflexivity. Qed.

Lemma reload_restores_history_witness :
  mount emptyStorage = Done mountedEmpty
  /\ mounted_with (localStorage (run twiceJane mountedEmpty)) [janeUser; janeUser].
Proof.
  split; [reflexivity |].
  exact (reload_restores_history emptyStorage mountedEmpty twiceJane eq_refl).
Defined.

(** X1: the text the persist effect writes is never empty, and parsing it
    gives back the people it was written from, in order. *)
Theorem stored_history_reads_back (us : list User) :
  Json.stringify us <> EmptyString
  /\ exists v, Json.parse (Json.stringify us) = Json.Parsed v /\ Json.as_users v = Some us.
Proof.
  split; [apply stringify_not_empty |].
  exists (Json.JArr (map Json.of_user us)).
  split; [apply parse_stringify | apply as_users_of_users].
Qed.

(** X2: once the component has mounted, after every event the item under
    the storage key is the serialized current history and no write is
    pending. *)
Theorem storage_mirrors_history (storage : gmap string string) (w : World)
    (es : list Event) :
  mount storage = Done w ->
  localStorage (run es w) !! storageKey
    = Some (Json.stringify (map fields (userHistory (ui (run es w)))))
  /\ historyStale (run es w) = false.
Proof. intros Hm. exact (run_synced es w (mount_synced storage w Hm)). Qed.

Lemma storage_mirrors_history_witness :
  mount emptyStorage = Done mountedEmpty
  /\ localStorage (run twiceJane mountedEmpty) !! storageKey
     = Some (Json.stringify [janeUser; janeUser]).
Proof.
  split; [reflexivity |].
  exact (proj1 (storage_mirrors_history emptyStorage mountedEmpty twiceJane eq_refl)).
Defined.

(** ** What the handlers leave alone *)

Lemma handle_localStorage (e : Event) (w : World) :
  localStorage (handle e w) = localStorage w.
Proof.
  destruct e as [| r | p | | | v]; try reflexivity; cbn.
  - unfold fetch_resume. destruct (newUser r); reflexivity.
  - unfold toggleFavorite. destruct (arr_includes _ _); reflexivity.
  - unfold copyUserInfo. destruct (user (ui w)); reflexivity.
Qed.

Lemma handle_historyStale (e : Event) (w : World) :
  historyStale (handle e w) = historyStale w || writes_history e.
Proof.
  destruct e as [| r | p | | | v]; cbn; try (rewrite orb_false_r; reflexivity).
  - unfold fetch_resume, writes_history. cbn.
    destruct (newUser r); cbn; [rewrite orb_false_r | rewrite orb_true_r]; reflexivity.
  - unfold toggleFavorite. destruct (arr_includes _ _); cbn; rewrite orb_false_r; reflexivity.
  - unfold copyUserInfo. destruct (user (ui w)); cbn; rewrite orb_false_r; reflexivity.
  - rewrite orb_true_r. reflexivity.
Qed.

(** X7: with no write pending, an event touches the storage exactly when it
    is a clear or a successful fetch, and then it stores the serialized new
    history under the key; every other event (a failed fetch, a favorite, a
    copy, a search, the start of a fetch) leaves the storage as it is. *)
Theorem storage_written_only_with_history (e : Event) (w : World) :
  historyStale w = false ->
  localStorage (dispatch e w) =
    (if writes_history e
     then <[storageKey := Json.stringify (map fields (userHistory (ui (dispatch e w))))]>
            (localStorage w)
     else localStorage w)
  /\ historyStale (dispatch e w) = false.
Proof.
  intros Hs. split; [| apply commit_historyStale].
  rewrite dispatch_ui. unfold dispatch, commit.
  rewrite handle_historyStale, Hs. cbn [orb].
  destruct (writes_history e); [| apply handle_localStorage].
  cbn. rewrite handle_localStorage. reflexivity.
Qed.

Lemma storage_written_only_with_history_witness :
  historyStale mountedEmpty = false
  /\ localStorage (dispatch (FetchSettled Rejects) mountedEmpty) = localStorage mountedEmpty
  /\ localStorage (dispatch (FavoriteClicked alice) mountedEmpty) = localStorage mountedEmpty.
Proof.
  split; [reflexivity |]. split.
  - exact (proj1 (storage_written_only_with_history (FetchSettled Rejects) mountedEmpty eq_refl)).
  - exact (proj1 (storage_written_only_with_history (FavoriteClicked alice) mountedEmpty eq_refl)).
Defined.

Lemma dispatch_other_keys (e : Event) (w : World) :
  delete storageKey (localStorage (dispatch e w)) = delete storageKey (localStorage w).
Proof.
  unfold dispatch, commit. destruct (historyStale (handle e w)).
  - cbn. rewrite delete_insert_eq, handle_localStorage. reflexivity.
  - rewrite handle_localStorage. reflexivity.
Qed.

Lemma loadHistory_localStorage (w w' : World) :
  loadHistory w = Done w' -> localStorage w' = localStorage w.
Proof.
  unfold loadHistory. destruct (localStorage w !! storageKey) as [s |].
  - destruct (bool_decide (s = EmptyString)); [intros H; injection H as <-; reflexivity |].
    destruct (Json.parse s) as [v | |]; try discriminate.
    destruct (Json.as_users v); try discriminate.
    intros H. injection H as <-. reflexivity.
  - intros H. injection H as <-. reflexivity.
Qed.

(** X8: the component reads and writes one storage key only: mounting and
    every later event leave all other items of the storage as they were. *)
Theorem other_keys_untouched (storage : gmap string string) (w : World)
    (es : list Event) :
  mount storage = Done w ->
  delete storageKey (localStorage (run es w)) = delete storageKey storage.
Proof.
  intros Hm. transitivity (delete storageKey (localStorage w)).
  - clear Hm. revert w. induction es as [| e es IH]; intros w; [reflexivity |].
    rewrite run_step, IH. apply dispatch_other_keys.
  - unfold mount in Hm.
    destruct (loadHistory (initialWorld storage)) as [w1 | |] eqn:Hl; try discriminate.
    injection Hm as <-. apply loadHistory_localStorage in Hl. cbn in Hl.
    unfold commit. destruct (historyStale _); cbn; rewrite ?delete_insert_eq, Hl; reflexivity.
Qed.

Lemma other_keys_untouched_witness :
  let storage : gmap string string := {[ "theme"%string := "dark"%string ]} in
  localStorage (run twiceJane
                  (match mount storage with Done w => w | _ => initialWorld storage end))
    !! "theme"%string = Some "dark"%string.
Proof.
  cbn zeta.
  pose proof (other_keys_untouched {[ "theme"%string := "dark"%string ]}
                (match mount {[ "theme"%string := "dark"%string ]} with
                 | Done w => w | _ => initialWorld {[ "theme"%string := "dark"%string ]} end)
                twiceJane eq_refl) as H.
  apply (f_equal (fun m => m !! "theme"%string)) in H.
  rewrite !lookup_delete_ne in H by discriminate.
  rewrite H. reflexivity.
Defined.

(** ** What a trace leaves behind *)

Lemma run_snoc (es : list Event) (e : Event) (w : World) :
  run (es ++ [e]) w = dispatch e (run es w).
Proof. apply run_cat. Qed.

Lemma last_omap_snoc {A B : Type} (f : A -> option B) (l : list A) (x : A) :
  last (omap f (l ++ [x])) = match f x with Some y => Some y | None => last (omap f l) end.
Proof.
  rewrite omap_app. cbn. destruct (f x) as [y |]; [apply last_snoc |].
  rewrite app_nil_r. reflexivity.
Qed.

Lemma handle_loading (e : Event) (w : World) :
  loading (ui (handle e w)) = default (loading (ui w)) (busy_of e).
Proof.
  destruct e as [| r | p | | | v]; try reflexivity; cbn.
  - unfold toggleFavorite. destruct (arr_includes _ _); reflexivity.
  - unfold copyUserInfo. destruct (user (ui w)); reflexivity.
Qed.

Lemma handle_error (e : Event) (w : World) :
  error (ui (handle e w)) = default (error (ui w)) (error_of e).
Proof.
  destruct e as [| r | p | | | v]; try reflexivity; cbn.
  - unfold fetch_resume, failed. destruct (newUser r); reflexivity.
  - unfold toggleFavorite. destruct (arr_includes _ _); reflexivity.
  - unfold copyUserInfo. destruct (user (ui w)); reflexivity.
Qed.

Lemma handle_user (e : Event) (w : World) :
  fields <$> user (ui (handle e w)) =
  match fetched e with Some u => Some u | None => fields <$> user (ui w) end.
Proof.
  destruct e as [| r | p | | | v]; try reflexivity; cbn.
  - unfold fetch_resume. destruct (newUser r); reflexivity.
  - unfold toggleFavorite. destruct (arr_includes _ _); reflexivity.
  - unfold copyUserInfo. destruct (user (ui w)) eqn:H; cbn; rewrite ?H; reflexivity.
Qed.

(** X5: the spinner and the error depend on the last fetch event only.  The
    loading flag is true exactly when the last of the events "a fetch began"
    and "a fetch settled" was a beginning - so it drops as soon as one of
    several overlapping calls settles.  The error is the failure message
    exactly when a fetch has failed and none was begun since; a success does
    not clear it. *)
Theorem spinner_and_error_follow_last_fetch_event (w : World) (es : list Event) :
  loading (ui (run es w)) = default (loading (ui w)) (last (omap busy_of es))
  /\ error (ui (run es w)) = default (error (ui w)) (last (omap error_of es)).
Proof.
  induction es as [| e es [IHl IHe]] using rev_ind; [split; reflexivity |].
  rewrite run_snoc, dispatch_ui, handle_loading, handle_error, !last_omap_snoc, IHl, IHe.
  split; [destruct (busy_of e) | destruct (error_of e)]; reflexivity.
Qed.

(** X6: the person on the card is the one brought by the last successful
    fetch; failed fetches, clears, favorites, copies and searches never
    change it. *)
Theorem card_shows_last_success (w : World) (es : list Event) :
  fields <$> user (ui (run es w)) =
  match last (omap fetched es) with
  | Some u => Some u
  | None => fields <$> user (ui w)
  end.
Proof.
  induction es as [| e es IH] using rev_ind; [reflexivity |].
  rewrite run_snoc, dispatch_ui, handle_user, last_omap_snoc, IH.
  destruct (fetched e); reflexivity.
Qed.

Lemma handle_history_fields (e : Event) (w : World) :
  map fields (userHistory (ui (handle e w))) =
  if is_clear e then [] else map fields (userHistory (ui w)) ++ omap fetched [e].
Proof.
  destruct (is_clear e) eqn:Hc.
  - destruct e; try discriminate. reflexivity.
  - rewrite (handle_userHistory e w Hc), map_app. f_equal.
    destruct e as [| r | p | | | v]; try reflexivity.
    cbn. destruct (newUser r); reflexivity.
Qed.

Lemma since_clear_no_clear (es : list Event) :
  has_clear es = false -> since_clear es = es.
Proof.
  induction es as [| e es IH]; [reflexivity |].
  cbn [has_clear existsb since_clear]. fold (has_clear es).
  intros H. apply orb_false_elim in H as [He Hes]. rewrite Hes, He. reflexivity.
Qed.

(** X4: the history holds the people brought by the successful fetches
    since the last clear, in the order in which the fetches settled, after
    the people it held at first when nothing was cleared. *)
Theorem history_since_last_clear (w : World) (es : list Event) :
  map fields (userHistory (ui (run es w))) =
  (if has_clear es then [] else map fields (userHistory (ui w)))
  ++ omap fetched (since_clear es).
Proof.
  revert w. induction es as [| e es IH]; intros w.
  - cbn. rewrite app_nil_r. reflexivity.
  - rewrite run_step, IH, dispatch_ui, handle_history_fields.
    cbn [has_clear existsb since_clear]. fold (has_clear es).
    destruct (has_clear es) eqn:Hes.
    + rewrite orb_true_r. reflexivity.
    + rewrite orb_false_r, (since_clear_no_clear es Hes).
      destruct (is_clear e) eqn:Hc; [reflexivity |].
      rewrite <- app_assoc. f_equal.
      change (e :: es) with ([e] ++ es). rewrite omap_app. reflexivity.
Qed.

Example history_after_clear_sample :
  map fields (userHistory (ui (run (sampleTrace ++ [ClearClicked] ++ twiceJane) mountedEmpty)))
  = [janeUser; janeUser].
Proof. vm_compute. reflexivity. Qed.

Example spinner_drops_at_first_settle :
  loading (ui (run [FetchClicked; FetchClicked; FetchSettled Rejects] mountedEmpty)) = false.
Proof. reflexivity. Qed.

(** ** One favorite at a time *)

Lemma arr_includes_same_ref (p q : Obj) (l : list Obj) :
  same_ref q p = true -> arr_includes l q = arr_includes l p.
Proof.
  intros H. unfold arr_includes, same_ref in *. apply Nat.eqb_eq in H.
  induction l as [| x l IH]; [reflexivity |]. cbn. rewrite IH, H. reflexivity.
Qed.

Lemma toggleFavorite_includes (p q : Obj) (w : World) :
  arr_includes (favorites (ui (toggleFavorite p w))) q =
    (if same_ref q p then negb (arr_includes (favorites (ui w)) p)
     else arr_includes (favorites (ui w)) q).
Proof.
  rewrite toggleFavorite_favorites.
  destruct (arr_includes (favorites (ui w)) p) eqn:Hin.
  - destruct (same_ref q p) eqn:Hq.
    + rewrite (arr_includes_same_ref p q _ Hq). apply arr_includes_without_self.
    + apply arr_includes_without_other. exact Hq.
  - rewrite arr_includes_app. cbn. rewrite orb_false_r.
    destruct (same_ref q p) eqn:Hq; [apply orb_true_r | apply orb_false_r].
Qed.

(** X9: toggling a person flips whether that reference is a favorite and
    changes it for no other reference; the history, the card and the search
    term stay as they are. *)
Theorem toggleFavorite_flips_one (p q : Obj) (w : World) :
  arr_includes (favorites (ui (toggleFavorite p w))) q =
    (if same_ref q p then negb (arr_includes (favorites (ui w)) p)
     else arr_includes (favorites (ui w)) q)
  /\ userHistory (ui (toggleFavorite p w)) = userHistory (ui w)
  /\ user (ui (toggleFavorite p w)) = user (ui w)
  /\ searchTerm (ui (toggleFavorite p w)) = searchTerm (ui w).
Proof.
  split; [apply toggleFavorite_includes |].
  unfold toggleFavorite. destruct (arr_includes _ _); repeat split.
Qed.

(** ** References of the history *)

Lemma addr_alloc_all (base : nat) (us : list User) :
  map addr (alloc_all base us) = seq base (length us).
Proof.
  unfold alloc_all. revert base. induction us as [| u us IH]; intros base; [reflexivity |].
  rewrite imap_cons. cbn. rewrite Nat.add_0_r. f_equal.
  rewrite <- (IH (S base)). f_equal. apply imap_ext. intros i x _. cbn. f_equal. lia.
Qed.

Lemma fresh_history_commit (w : World) : fresh_history w -> fresh_history (commit w).
Proof. unfold fresh_history. autorewrite with world. tauto. Qed.

Lemma fresh_history_handle (e : Event) (w : World) :
  fresh_history w -> fresh_history (handle e w).
Proof.
  intros [Hn Hf]. destruct e as [| r | p | | | v]; cbn.
  - split; assumption.
  - unfold fetch_resume. destruct (newUser r) as [x | u]; [split; assumption |].
    unfold fresh_history. cbn. split.
    + rewrite map_app. apply NoDup_app. split; [exact Hn |]. split; [| apply NoDup_singleton].
      intros a Ha Hp. apply list_elem_of_singleton in Hp. subst a.
      apply list_elem_of_fmap in Ha as (o & Ho & Hin).
      rewrite Forall_forall in Hf.
      specialize (Hf o Hin). cbn in Ho. lia.
    + apply Forall_app. split.
      * eapply Forall_impl; [exact Hf |]. cbn. intros o Ho. lia.
      * constructor; [cbn; lia | constructor].
  - unfold toggleFavorite. destruct (arr_includes _ _); split; assumption.
  - unfold copyUserInfo. destruct (user (ui w)); split; assumption.
  - split; constructor.
  - split; assumption.
Qed.

Lemma fresh_history_mount (storage : gmap string string) (w : World) :
  mount storage = Done w -> fresh_history w.
Proof.
  unfold mount. destruct (loadHistory (initialWorld storage)) as [w1 | |] eqn:Hl;
    try discriminate.
  intros H. injection H as <-. apply fresh_history_commit.
  revert Hl. unfold_mount.
  assert (H0 : fresh_history
                 (fetch_begin (persistHistory [] (initialWorld storage))))
    by (split; constructor).
  destruct (storage !! storageKey) as [s |].
  - destruct (bool_decide (s = EmptyString)); [intros H; injection H as <-; exact H0 |].
    destruct (Json.parse s) as [v | |]; try discriminate.
    destruct (Json.as_users v) as [us |]; try discriminate.
    intros H. injection H as <-. unfold fresh_history. cbn. split.
    + rewrite addr_alloc_all. apply NoDup_seq.
    + apply Forall_forall. intros o Ho.
      assert (Ha : addr o ∈ map addr (alloc_all 0 us)).
      { apply list_elem_of_fmap. exists o. split; [reflexivity | exact Ho]. }
      rewrite addr_alloc_all in Ha. apply elem_of_seq in Ha. lia.
  - intros H. injection H as <-. exact H0.
Qed.

(** X10: every entry of the history is an object of its own: after mounting
    and any events, no two entries share a reference (even when they hold the
    same data), and each reference is older than the next object to be
    created. *)
Theorem history_references_distinct (storage : gmap string string) (w : World)
    (es : list Event) :
  mount storage = Done w ->
  NoDup (map addr (userHistory (ui (run es w))))
  /\ Forall (fun o => addr o < nextAddr (run es w)) (userHistory (ui (run es w))).
Proof.
  intros Hm. apply fresh_history_mount in Hm.
  revert w Hm. induction es as [| e es IH]; intros w Hw; [exact Hw |].
  rewrite run_step. apply IH. apply fresh_history_commit, fresh_history_handle, Hw.
Qed.

Lemma history_references_distinct_witness :
  mount emptyStorage = Done mountedEmpty
  /\ map fields (userHistory (ui (run twiceJane mountedEmpty))) = [janeUser; janeUser]
  /\ NoDup (map addr (userHistory (ui (run twiceJane mountedEmpty)))).
Proof.
  split; [reflexivity |]. split; [reflexivity |].
  exact (proj1 (history_references_distinct emptyStorage mountedEmpty twiceJane eq_refl)).
Defined.

(** ** The view *)

Lemma rows_lookup (s : State) (i : nat) :
  rows (render s) !! i = renderRow s i <$> filteredHistory s !! i.
Proof. apply list_lookup_imap. Qed.

Lemma rows_length (s : State) : length (rows (render s)) = length (filteredHistory s).
Proof. apply length_imap. Qed.

Lemma toggleFavorite_filteredHistory (p : Obj) (w : World) :
  filteredHistory (ui (toggleFavorite p w)) = filteredHistory (ui w).
Proof. unfold toggleFavorite. destruct (arr_includes _ _); reflexivity. Qed.

Lemma NoDup_addr_filter (f : Obj -> bool) (l : list Obj) :
  NoDup (map addr l) -> NoDup (map addr (List.filter f l)).
Proof.
  induction l as [| x l IH]; [intros; constructor |].
  cbn. intros H. apply NoDup_cons in H as [Hx Hl].
  destruct (f x); cbn; [| exact (IH Hl)].
  apply NoDup_cons. split; [| exact (IH Hl)].
  intros Hin. apply Hx.
  apply list_elem_of_fmap in Hin as (y & Hy & Hyin).
  apply list_elem_of_fmap. exists y. split; [exact Hy |].
  apply list_elem_of_In. apply list_elem_of_In in Hyin.
  apply List.filter_In in Hyin as [Hyin _]. exact Hyin.
Qed.

Lemma other_label_flips (b : bool) :
  other_label (if b then "Unfavorite" else "Favorite")
  = (if negb b then "Unfavorite" else "Favorite")%string.
Proof. destruct b; reflexivity. Qed.

(** X11: clicking the button of a history row flips the label of that row
    between Favorite and Unfavorite and changes no other row, provided the
    entries of the history are distinct objects (as they are after mounting);
    names, order and number of the rows stay the same. *)
Theorem row_click_flips_one_label (w : World) (i : nat) (row : RowView) :
  NoDup (map addr (userHistory (ui w))) ->
  rows (render (ui w)) !! i = Some row ->
  map rowLabel (rows (render (ui (dispatch (rowClick row) w))))
    = <[i := other_label (rowLabel row)]> (map rowLabel (rows (render (ui w))))
  /\ map rowName (rows (render (ui (dispatch (rowClick row) w))))
     = map rowName (rows (render (ui w))).
Proof.
  intros Hnd Hrow. rewrite rows_lookup in Hrow.
  destruct (filteredHistory (ui w) !! i) as [u |] eqn:Hu; [| discriminate].
  injection Hrow as <-. cbn [rowClick renderRow rowLabel].
  rewrite dispatch_ui. cbn [handle].
  assert (Hfl := NoDup_addr_filter (matches (searchTerm (ui w))) _ Hnd).
  fold (filteredHistory (ui w)) in Hfl.
  split; apply list_eq; intros j;
    rewrite ?list_lookup_fmap, ?rows_lookup, ?toggleFavorite_filteredHistory.
  - destruct (decide (i = j)) as [<- | Hij].
    + rewrite list_lookup_insert_eq
        by (rewrite length_fmap, rows_length; apply lookup_lt_Some in Hu; exact Hu).
      rewrite Hu. cbn.
      rewrite (toggleFavorite_includes u u w), same_ref_refl.
      rewrite other_label_flips. reflexivity.
    + rewrite list_lookup_insert_ne by exact Hij.
      rewrite list_lookup_fmap, rows_lookup.
      destruct (filteredHistory (ui w) !! j) as [v |] eqn:Hv; [| reflexivity].
      cbn. rewrite (toggleFavorite_includes u v w).
      destruct (same_ref v u) eqn:Hvu; [| reflexivity].
      exfalso. apply Hij. unfold same_ref in Hvu. apply Nat.eqb_eq in Hvu.
      apply (proj1 (NoDup_alt _) Hfl i j (addr u)).
      * rewrite list_lookup_fmap, Hu. reflexivity.
      * rewrite list_lookup_fmap, Hv. cbn. rewrite Hvu. reflexivity.
  - destruct (filteredHistory (ui w) !! j); reflexivity.
Qed.

Lemma row_click_flips_one_label_witness :
  let w := run twiceJane mountedEmpty in
  let row := renderRow (ui w) 0 (mkObj 0 janeUser) in
  NoDup (map addr (userHistory (ui w)))
  /\ rows (render (ui w)) !! 0 = Some row
  /\ map rowLabel (rows (render (ui (dispatch (rowClick row) w))))
     = <[0 := other_label (rowLabel row)]> (map rowLabel (rows (render (ui w)))).
Proof.
  cbn zeta.
  assert (H1 : NoDup (map addr (userHistory (ui (run twiceJane mountedEmpty))))).
  { vm_compute. apply NoDup_cons_2; [| apply NoDup_singleton].
    intros H. apply list_elem_of_singleton in H. discriminate H. }
  assert (H2 : rows (render (ui (run twiceJane mountedEmpty))) !! 0
               = Some (renderRow (ui (run twiceJane mountedEmpty)) 0 (mkObj 0 janeUser))).
  { vm_compute. reflexivity. }
  split; [exact H1 |]. split; [exact H2 |].
  exact (proj1 (row_click_flips_one_label _ _ _ H1 H2)).
Defined.

(** Two entries with the same data are still two people to favorite. *)
Example favoriting_one_of_two_equal_entries :
  let w := run twiceJane mountedEmpty in
  map rowName (rows (render (ui w))) = ["Jane Doe"; "Jane Doe"]%string
  /\ map rowLabel (rows (render (ui w))) = ["Favorite"; "Favorite"]%string
  /\ map rowLabel (rows (render (ui (dispatch (FavoriteClicked (mkObj 0 janeUser)) w))))
     = ["Unfavorite"; "Favorite"]%string.
Proof. cbn zeta. repeat split; vm_compute; reflexivity. Qed.

(** X12: when a call of [fetchRandomUser] has completed, the spinner is
    gone; the error line is shown exactly when the call failed; after a
    success the card shows the data of the new person, after a failure the
    card is the one shown before (none if there was none). *)
Theorem view_after_fetch (r : Response) (w : World) :
  let v := render (ui (fetchRandomUser r w)) in
  spinner v = false
  /\ errorText v = (if failed r then Some failureMessage else None)
  /\ match newUser r with
     | inr u => (fun c => (cardName c, cardEmail c, cardAddress c, imageSrc c, cardGender c))
                  <$> card v
                = Some (name u, email u, address u, image u, gender u)
     | inl _ => card v = card (render (ui w))
     end.
Proof.
  cbn zeta. rewrite fetchRandomUser_ui. unfold failed.
  destruct (newUser r) as [e | u] eqn:Hr.
  - destruct (fetch_resume_failure r (commit (fetch_begin w)) e Hr) as (-> & _).
    autorewrite with world. repeat split.
  - destruct (fetch_resume_success r (commit (fetch_begin w)) u Hr) as (-> & _).
    autorewrite with world. repeat split.
Qed.

Example view_shows_card_and_error_together :
  let v := render (ui (run (fetches [Body [janeDoe]; Rejects]) mountedEmpty)) in
  errorText v = Some failureMessage /\ cardName <$> card v = Some "Jane Doe"%string
  /\ genderIcon <$> card v = Some WomanIcon /\ favoriteNames v = None.
Proof. cbn zeta. repeat split; vm_compute; reflexivity. Qed.

(** ** Searching *)

Lemma append_assoc (a b c : string) : ((a ++ b) ++ c = a ++ b ++ c)%string.
Proof.
  induction a as [| x a IH]; [reflexivity |].
  change (String x ((a ++ b) ++ c) = String x (a ++ b ++ c))%string. f_equal. exact IH.
Qed.

Lemma append_empty_r (a : string) : (a ++ EmptyString)%string = a.
Proof.
  induction a as [| x a IH]; [reflexivity |].
  change (String x (a ++ EmptyString) = String x a)%string. f_equal. exact IH.
Qed.







Lemma contains_ci_part (pre mid post t : string) :
  eq_ignore_case t mid -> contains_ci (pre ++ mid ++ post) t.
Proof. intros H. exists pre, mid, post. split; [reflexivity | symmetry; exact H]. Qed.

Lemma filteredHistory_search (t : string) (w : World) :
  filteredHistory (ui (handleSearch t w)) = List.filter (matches t) (userHistory (ui w)).
Proof. reflexivity. Qed.

(** X14: a person who has just been fetched is found by first name, by last
    name and by email, in any letter case: with such a search term the
    new person is the last entry of the filtered history. *)
Theorem fetched_person_is_found (fu : Api.Result) (others : list Api.Result)
    (w : World) (t : string) :
  eq_ignore_case t (Api.first (Api.name fu))
  \/ eq_ignore_case t (Api.last (Api.name fu))
  \/ eq_ignore_case t (Api.email fu) ->
  fields <$> last (filteredHistory
                     (ui (dispatch (SearchTyped t) (fetchRandomUser (Body (fu :: others)) w))))
  = match newUser (Body (fu :: others)) with inr u => Some u | inl _ => None end.
Proof.
  intros Ht. rewrite dispatch_ui. cbn [handle handleSearch].
  set (r := Body (fu :: others)).
  assert (Hr : newUser r = inr (match newUser r with inr u => u | inl _ => janeUser end))
    by reflexivity.
  set (u := match newUser r with inr u => u | inl _ => janeUser end) in *.
  change (match newUser r with inr u0 => Some u0 | inl _ => None end) with (Some u).
  rewrite filteredHistory_search, fetchRandomUser_ui.
  destruct (fetch_resume_success r (commit (fetch_begin w)) u Hr) as (-> & _).
  cbn [userHistory]. rewrite List.filter_app. cbn [List.filter].
  assert (Hm : matches t (mkObj (nextAddr (commit (fetch_begin w))) u) = true).
  { apply matches_spec. unfold entry_matches. cbn [fields].
    change (name u)
      with (Api.first (Api.name fu) ++ " " ++ Api.last (Api.name fu))%string.
    change (email u) with (Api.email fu).
    destruct Ht as [H | [H | H]].
    - left. apply (contains_ci_part EmptyString). exact H.
    - left. exists (Api.first (Api.name fu) ++ " ")%string, (Api.last (Api.name fu)),
        EmptyString.
      split; [rewrite append_assoc, append_empty_r; reflexivity | symmetry; exact H].
    - right. exists EmptyString, (Api.email fu), EmptyString.
      split; [symmetry; apply append_empty_r | symmetry; exact H]. }
  rewrite Hm, last_snoc. reflexivity.
Qed.

Lemma fetched_person_is_found_witness :
  eq_ignore_case "DOE" (Api.last (Api.name janeDoe))
  /\ fields <$> last (filteredHistory
                        (ui (dispatch (SearchTyped "DOE")
                               (fetchRandomUser (Body [janeDoe]) mountedEmpty))))
     = Some janeUser.
Proof.
  split; [reflexivity |].
  exact (fetched_person_is_found janeDoe [] mountedEmpty "DOE" (or_intror (or_introl eq_refl))).
Defined.

(** ** Sessions *)

Lemma card_Some (s : State) (c : CardView) :
  card (render s) = Some c -> exists u, user s = Some u /\ c = renderCard s u.
Proof.
  unfold render, card. destruct (user s) as [u |]; [| discriminate].
  intros H. injection H as <-. exists u. split; reflexivity.
Qed.

Lemma row_elem_of (s : State) (row : RowView) :
  row ∈ rows (render s) -> exists i u, u ∈ userHistory s /\ row = renderRow s i u.
Proof.
  intros H. apply list_elem_of_lookup in H as [i Hi]. rewrite rows_lookup in Hi.
  destruct (filteredHistory s !! i) as [u |] eqn:Hu; [| discriminate].
  injection Hi as <-. exists i, u. split; [| reflexivity].
  apply list_elem_of_lookup_2 in Hu. apply list_elem_of_In in Hu.
  apply List.filter_In in Hu as [Hu _]. apply list_elem_of_In. exact Hu.
Qed.

(** A favorite button belongs to the person on the card or to a person of
    the history. *)
Lemma Offers_favorite (s : State) (p : Obj) :
  Offers s (FavoriteClicked p) -> user s = Some p \/ p ∈ userHistory s.
Proof.
  intros H. inversion H as [| | | | c Hc Heq | c Hc Heq | row Hrow Heq].
  - apply card_Some in Hc as (u & Hu & ->). cbn in Heq. injection Heq as ->.
    left. exact Hu.
  - apply card_Some in Hc as (u & Hu & ->). discriminate Heq.
  - apply row_elem_of in Hrow as (i & u & Hu & ->). cbn in Heq. injection Heq as ->.
    right. exact Hu.
Qed.

(** The copy button is there only when there is a card. *)
Lemma Offers_copy_user (s : State) : Offers s CopyClicked -> is_Some (user s).
Proof.
  intros H. inversion H as [| | | | c Hc Heq | c Hc Heq | row Hrow Heq].
  - apply card_Some in Hc as (u & Hu & ->). discriminate Heq.
  - apply card_Some in Hc as (u & Hu & ->). exists u. exact Hu.
  - apply row_elem_of in Hrow as (i & u & Hu & ->). discriminate Heq.
Qed.

Lemma was_shown_snoc (w : World) (es : list Event) (e : Event) (o : Obj) :
  was_shown w es o -> was_shown w (es ++ [e]) o.
Proof.
  intros (es1 & es2 & -> & H). exists es1, (es2 ++ [e]).
  split; [symmetry; apply app_assoc | exact H].
Qed.

Lemma elem_of_without (p o : Obj) (l : list Obj) : o ∈ without p l -> o ∈ l.
Proof.
  intros H. apply list_elem_of_In in H. apply List.filter_In in H as [H _].
  apply list_elem_of_In. exact H.
Qed.

(** X15: through the page, only people who have been shown can become
    favorites.  In a session that starts without favorites, every favorite
    has been, at some point, the person on the card or an entry of the
    history (it may have left the history since, by a clear). *)
Theorem favorites_were_shown (w : World) (es : list Event) :
  Session w es ->
  favorites (ui w) = [] ->
  forall o, o ∈ favorites (ui (run es w)) -> was_shown w es o.
Proof.
  intros Hs H0. induction Hs as [| es e Hs IH Hoff]; intros o Ho.
  - cbn in Ho. rewrite H0 in Ho. inversion Ho.
  - rewrite run_snoc, dispatch_ui, handle_favorites in Ho.
    destruct e as [| r | p | | | v]; try (apply was_shown_snoc, IH, Ho).
    rewrite toggleFavorite_favorites in Ho.
    destruct (arr_includes (favorites (ui (run es w))) p).
    + apply was_shown_snoc, IH. exact (elem_of_without _ _ _ Ho).
    + apply elem_of_app in Ho as [Ho | Ho]; [apply was_shown_snoc, IH, Ho |].
      apply list_elem_of_singleton in Ho. subst o.
      exists es, [FavoriteClicked p]. split; [reflexivity |].
      exact (Offers_favorite _ _ Hoff).
Qed.

Lemma handle_clipboard (e : Event) (w : World) :
  e <> CopyClicked ->
  clipboard (handle e w) = clipboard w /\ alerts (handle e w) = alerts w.
Proof.
  destruct e as [| r | p | | | v]; try (intros _; split; reflexivity).
  - intros _. cbn. unfold fetch_resume. destruct (newUser r); split; reflexivity.
  - intros _. cbn. unfold toggleFavorite. destruct (arr_includes _ _); split; reflexivity.
  - intros H. contradiction.
Qed.

Lemma copies_snoc (es : list Event) (e : Event) :
  copies (es ++ [e]) = copies es + copies [e].
Proof. unfold copies. rewrite List.filter_app, length_app. reflexivity. Qed.

(** X16: through the page, every click on the copy button copies.  The
    button is part of the card, so the guard of line 78 never fails in a
    session: the number of texts handed to the clipboard, and of alerts
    shown, grows by exactly the number of clicks. *)
Theorem every_copy_click_copies (w : World) (es : list Event) :
  Session w es ->
  length (clipboard (run es w)) = length (clipboard w) + copies es
  /\ length (alerts (run es w)) = length (alerts w) + copies es.
Proof.
  induction 1 as [| es e Hs [IHc IHa] Hoff]; [split; cbn; lia |].
  rewrite run_snoc, copies_snoc. unfold dispatch. autorewrite with world.
  assert (Hcase : e = CopyClicked \/ e <> CopyClicked)
    by (destruct e; (left; reflexivity) || (right; discriminate)).
  destruct Hcase as [-> | Hne].
  - apply Offers_copy_user in Hoff as [u Hu].
    cbn [handle]. unfold copyUserInfo. rewrite Hu. cbn.
    rewrite !length_app, IHc, IHa. cbn. lia.
  - destruct (handle_clipboard e (run es w) Hne) as [-> ->].
    assert (Hz : copies [e] = 0) by (destruct e; try reflexivity; contradiction).
    rewrite Hz, IHc, IHa. lia.
Qed.

Lemma shortSession_is_session : Session mountedEmpty shortSession.
Proof.
  change shortSession
    with ((([] ++ [FetchSettled (Body [janeDoe])])
           ++ [FavoriteClicked (mkObj 0 janeUser)]) ++ [CopyClicked]).
  apply Session_snoc; [apply Session_snoc; [apply Session_snoc; [apply Session_nil |] |] |].
  - apply Offers_settle.
  - apply (Offers_star _ (renderCard (ui (run [FetchSettled (Body [janeDoe])] mountedEmpty))
                            (mkObj 0 janeUser))).
    vm_compute. reflexivity.
  - apply (Offers_copy _ (renderCard
                            (ui (run [FetchSettled (Body [janeDoe]);
                                      FavoriteClicked (mkObj 0 janeUser)] mountedEmpty))
                            (mkObj 0 janeUser))).
    vm_compute. reflexivity.
Defined.

Lemma favorites_were_shown_witness :
  favorites (ui mountedEmpty) = []
  /\ favorites (ui (run shortSession mountedEmpty)) = [mkObj 0 janeUser]
  /\ was_shown mountedEmpty shortSession (mkObj 0 janeUser).
Proof.
  split; [reflexivity |]. split; [vm_compute; reflexivity |].
  apply (favorites_were_shown mountedEmpty shortSession shortSession_is_session eq_refl).
  vm_compute. apply list_elem_of_here.
Defined.

Lemma every_copy_click_copies_witness :
  copies shortSession = 1 /\ length (clipboard (run shortSession mountedEmpty)) = 1.
Proof.
  split; [reflexivity |].
  exact (proj1 (every_copy_click_copies mountedEmpty shortSession shortSession_is_session)).
Defined.

(** ** New people are not favorites *)

Lemma mount_ui (storage : gmap string string) (w : World) :
  mount storage = Done w ->
  user (ui w) = None /\ favorites (ui w) = [] /\ searchTerm (ui w) = EmptyString.
Proof.
  unfold mount. destruct (loadHistory (initialWorld storage)) as [w1 | |] eqn:Hl;
    try discriminate.
  intros H. injection H as <-. rewrite commit_ui. revert Hl. unfold_mount.
  destruct (storage !! storageKey) as [s |].
  - destruct (bool_decide (s = EmptyString)); [intros H; injection H as <-; repeat split |].
    destruct (Json.parse s) as [v | |]; try discriminate.
    destruct (Json.as_users v) as [us |]; try discriminate.
    intros H. injection H as <-. repeat split.
  - intros H. injection H as <-. repeat split.
Qed.

Lemma all_created_mount (storage : gmap string string) (w : World) :
  mount storage = Done w -> all_created w.
Proof.
  intros Hm. destruct (mount_ui storage w Hm) as (Hu & Hf & _).
  destruct (fresh_history_mount storage w Hm) as [_ Hh].
  unfold all_created. rewrite Hf, Hu. split; [constructor |]. split; [exact Hh |].
  discriminate.
Qed.

Lemma Forall_addr_weaken (n m : nat) (l : list Obj) :
  n <= m -> Forall (fun o => addr o < n) l -> Forall (fun o => addr o < m) l.
Proof. intros Hnm H. eapply Forall_impl; [exact H |]. cbn. intros o Ho. lia. Qed.

Lemma all_created_dispatch (e : Event) (w : World) :
  all_created w -> Offers (ui w) e -> all_created (dispatch e w).
Proof.
  intros (Hf & Hh & Hu) Hoff. unfold all_created, dispatch. autorewrite with world.
  destruct e as [| r | p | | | v]; cbn [handle].
  - repeat split; assumption.
  - unfold fetch_resume. destruct (newUser r) as [x | u]; cbn.
    + repeat split; assumption.
    + split; [exact (Forall_addr_weaken _ _ _ (Nat.le_add_r _ 1) Hf) |]. split.
      * apply Forall_app. split; [exact (Forall_addr_weaken _ _ _ (Nat.le_add_r _ 1) Hh) |].
        constructor; [cbn; lia | constructor].
      * intros o Ho. injection Ho as <-. cbn. lia.
  - assert (Hp : addr p < nextAddr w).
    { destruct (Offers_favorite _ _ Hoff) as [H | H]; [exact (Hu p H) |].
      rewrite Forall_forall in Hh. exact (Hh p H). }
    unfold toggleFavorite. destruct (arr_includes _ _); cbn.
    + split; [| split; assumption].
      apply Forall_forall. intros o Ho. rewrite Forall_forall in Hf.
      apply Hf. apply list_elem_of_In in Ho. apply List.filter_In in Ho as [Ho _].
      apply list_elem_of_In. exact Ho.
    + split; [| split; assumption].
      apply Forall_app. split; [exact Hf | constructor; [exact Hp | constructor]].
  - unfold copyUserInfo. destruct (user (ui w)) eqn:Hcur; cbn.
    + rewrite Hcur. repeat split; assumption.
    + rewrite Hcur. repeat split; assumption.
  - split; [exact Hf |]. split; [constructor | exact Hu].
  - repeat split; assumption.
Qed.

Lemma all_created_session (w : World) (es : list Event) :
  Session w es -> all_created w -> all_created (run es w).
Proof.
  intros Hs Hw. induction Hs as [| es e Hs IH Hoff]; [exact Hw |].
  rewrite run_snoc. apply all_created_dispatch; assumption.
Qed.

Lemma arr_includes_fresh (n : nat) (u : User) (l : list Obj) :
  Forall (fun o => addr o < n) l -> arr_includes l (mkObj n u) = false.
Proof.
  unfold arr_includes. induction 1 as [| x l Hx _ IH]; [reflexivity |].
  cbn. rewrite IH, orb_false_r. unfold same_ref. cbn. apply Nat.eqb_neq. lia.
Qed.

(** X17: a person who has just been fetched is never a favorite already,
    even when a person with the same data has been made a favorite before:
    in a session after mounting, a successful fetch shows the new card with
    the grey star. *)
Theorem new_person_is_not_favorite (storage : gmap string string) (w : World)
    (es : list Event) (r : Response) (u : User) :
  mount storage = Done w -> Session w es -> newUser r = inr u ->
  let w' := fetchRandomUser r (run es w) in
  user (ui w') = Some (mkObj (nextAddr (run es w)) u)
  /\ arr_includes (favorites (ui w')) (mkObj (nextAddr (run es w)) u) = false
  /\ starClass <$> card (render (ui w')) = Some "w-4 h-4 text-gray-400"%string.
Proof.
  intros Hm Hs Hr. cbn zeta.
  destruct (all_created_session w es Hs (all_created_mount storage w Hm)) as (Hf & _).
  assert (Hfav : arr_includes (favorites (ui (fetchRandomUser r (run es w))))
                              (mkObj (nextAddr (run es w)) u) = false).
  { rewrite fetchRandomUser_ui.
    destruct (fetch_resume_success r (commit (fetch_begin (run es w))) u Hr) as (-> & _).
    autorewrite with world. cbn. apply arr_includes_fresh. exact Hf. }
  assert (Hu : user (ui (fetchRandomUser r (run es w))) = Some (mkObj (nextAddr (run es w)) u)).
  { rewrite fetchRandomUser_ui.
    destruct (fetch_resume_success r (commit (fetch_begin (run es w))) u Hr) as (-> & _).
    autorewrite with world. reflexivity. }
  split; [exact Hu |]. split; [exact Hfav |].
  unfold render, card. rewrite Hu. cbn. rewrite Hfav. reflexivity.
Qed.

Lemma new_person_is_not_favorite_witness :
  mount emptyStorage = Done mountedEmpty
  /\ newUser (Body [janeDoe]) = inr janeUser
  /\ favorites (ui (run shortSession mountedEmpty)) = [mkObj 0 janeUser]
  /\ starClass <$> card (render (ui (fetchRandomUser (Body [janeDoe])
                                       (run shortSession mountedEmpty))))
     = Some "w-4 h-4 text-gray-400"%string.
Proof.
  split; [reflexivity |]. split; [reflexivity |]. split; [vm_compute; reflexivity |].
  exact (proj2 (proj2 (new_person_is_not_favorite emptyStorage mountedEmpty shortSession
                         (Body [janeDoe]) janeUser eq_refl shortSession_is_session eq_refl))).
Defined.
